(** * devto-agent: the A2A task manager and the remote agent connection

    A shallow embedding of
      - [src/a2a_servers/common/agent_task_manager.py]  (module [TaskManager])
      - [src/a2a_servers/agents/utils/remote_agent_connection.py]
        (module [RemoteAgent])
    and the properties of the task lifecycle protocol proved about it.

    Python values that the code probes at run time (subscripts,
    [isinstance(.., dict)], [in], truthiness) are kept dynamic in [value];
    exceptions are explicit ([exn]); the coroutines and the streaming
    generator run in a small monad that threads the state, collects what is
    yielded and propagates exceptions ([M]); the metadata dicts, which the
    connection updates in place, live in a heap.

    Outside the model: the lock of the task store (one coroutine runs at a
    time here), cancellation and the other exceptions that are not
    subclasses of [Exception], and streams that never end (an upstream is a
    finite sequence that ends or raises). *)

From Stdlib Require Import String Ascii ZArith List.
From stdpp Require Import gmap strings list fin_maps.
Import ListNotations.
Open Scope string_scope.
Set Warnings "-register-all".

(** ** Python values and their dynamic operations *)

Module Py.

(** JSON-like values: what an agent update or a metadata entry can hold. *)
Inductive value : Type :=
| VNone
| VBool (b : bool)
| VInt (n : Z)
| VStr (s : string)
| VList (l : list value)
| VDict (d : list (string * value)).

(** The exceptions that the modelled code can meet.  All of them are
    subclasses of Python's [Exception], so [except Exception] catches each. *)
Inductive exn : Type :=
| KeyError (key : string)
| TypeError
| IndexError
| AttributeError (name : string)
| UnboundLocalError (var : string)
| JSONDecodeError
| ValueError_not_found (task_id : string)   (* ValueError(f"Task {task_id} not found") *)
| ValueError_invoking (cause : exn)         (* ValueError(f"Error invoking agent: {e}") *)
| Raised (what : string).                   (* any exception of a collaborator *)

(** [bool(v)]: Python truthiness. *)
Definition truthy (v : value) : bool :=
  match v with
  | VNone => false
  | VBool b => b
  | VInt n => negb (Z.eqb n 0)
  | VStr s => negb (String.eqb s "")
  | VList l => match l with [] => false | _ => true end
  | VDict d => match d with [] => false | _ => true end
  end.

(** [isinstance(v, dict)] *)
Definition is_dict (v : value) : bool :=
  match v with VDict _ => true | _ => false end.

(** Lookup of a key in a dict's entries. *)
Fixpoint assoc (k : string) (d : list (string * value)) : option value :=
  match d with
  | [] => None
  | (k', v) :: d' => if String.eqb k k' then Some v else assoc k d'
  end.

(** [v[k]] for a string key [k]. *)
Definition getitem (v : value) (k : string) : exn + value :=
  match v with
  | VDict d => match assoc k d with Some x => inr x | None => inl (KeyError k) end
  | _ => inl TypeError
  end.

(** [p in s] on strings: [p] occurs in [s] as a contiguous substring. *)
Fixpoint is_substring (p s : string) : bool :=
  String.prefix p s ||
  match s with
  | EmptyString => false
  | String _ s' => is_substring p s'
  end.

(** [k in v] for a string [k]: key membership on a dict, substring test on a
    string, element membership on a list, [TypeError] otherwise. *)
Definition contains (k : string) (v : value) : exn + bool :=
  match v with
  | VDict d => inr (match assoc k d with Some _ => true | None => false end)
  | VStr s => inr (is_substring k s)
  | VList l =>
      inr (existsb (fun x => match x with VStr s => String.eqb s k | _ => false end) l)
  | _ => inl TypeError
  end.

End Py.
Export Py.

(** ** The protocol types ([a2a_servers.common.types]) *)

Module Types.

(** A metadata dict is a mutable object: objects hold a reference to it. *)
Definition loc := positive.

Inductive TaskState : Type := SUBMITTED | WORKING | INPUT_REQUIRED | COMPLETED.

#[global] Instance TaskState_eq_dec : EqDecision TaskState.
Proof. solve_decision. Defined.

(** [{"type": "text", "text": ..}] and [{"type": "data", "data": ..}] *)
Inductive Part : Type :=
| TextPart (text : value)
| DataPart (data : value).

(** Modelled from the spec: the declarations of [a2a_servers.common.types]
    are not among the sources.  The records carry the fields of the spec's
    data model that the two source files read or write; an optional field is
    an [option], and [None] is also what a field holds when the constructor
    call does not pass it.  Metadata is "a mapping of string to arbitrary
    value", optional, on messages and on the payloads that
    [merge_metadata] is applied to.  The constructors are plain data: what a
    validator of the real types would reject is outside this development. *)
Record Message : Type := mkMessage {
  msg_role : string;
  msg_parts : list Part;
  msg_metadata : option loc
}.

Record Artifact : Type := mkArtifact {
  art_parts : list Part;
  art_index : option Z;
  art_append : option bool
}.

Record TaskStatus : Type := mkTaskStatus {
  st_state : TaskState;
  st_message : option Message
}.

Record Task : Type := mkTask {
  t_id : string;
  t_sessionId : string;
  t_status : TaskStatus;
  t_artifacts : option (list Artifact);
  t_history : option (list Message);
  t_metadata : option loc
}.

Record TaskStatusUpdateEvent : Type := mkTaskStatusUpdateEvent {
  sue_id : string;
  sue_status : TaskStatus;
  sue_final : bool;
  sue_metadata : option loc
}.

Record TaskArtifactUpdateEvent : Type := mkTaskArtifactUpdateEvent {
  aue_id : string;
  aue_artifact : Artifact;
  aue_metadata : option loc
}.

Record TaskSendParams : Type := mkTaskSendParams {
  tsp_id : string;
  tsp_sessionId : string;
  tsp_message : Message;
  tsp_acceptedOutputModes : option (list string);
  tsp_metadata : option loc
}.

(** [SendTaskRequest] and [SendTaskStreamingRequest]: a JSON-RPC id and the
    parameters. *)
Record Request : Type := mkRequest {
  req_id : value;
  req_params : TaskSendParams
}.

Inductive JSONRPCError : Type :=
| InternalError (message : string)
| ContentTypeNotSupportedError.

(** The payload of a streamed response. *)
Inductive UpdateEvent : Type :=
| StatusUpdate (e : TaskStatusUpdateEvent)
| ArtifactUpdate (e : TaskArtifactUpdateEvent).

(** What the task manager hands to its caller: [SendTaskStreamingResponse]
    (a streamed event), [SendTaskResponse] (a task), or a [JSONRPCResponse]
    that carries an error. *)
Inductive Response : Type :=
| SendTaskStreamingResponse (id : value) (result : UpdateEvent)
| SendTaskResponse (id : value) (result : Task)
| JSONRPCResponse (id : value) (error : JSONRPCError).

End Types.
Export Types.

(** ** Exceptions and the coroutine monad *)

Module Effects.

(** Plain fallible computations: [exn + A]. *)
#[global] Instance result_ret : MRet (sum exn) := fun A a => inr a.
#[global] Instance result_bind : MBind (sum exn) :=
  fun A B f m => match m with inl e => inl e | inr a => f a end.

Section Monad.
(** [W]: the state a coroutine works on; [E]: what a generator yields. *)
Context {W E : Type}.

(** A run: the values yielded so far, the state left behind, and either the
    exception that ended the run or the returned value.  State changes and
    yields made before an exception stay made. *)
Record outcome (A : Type) : Type := mkOutcome {
  emitted : list E;
  after : W;
  returned : exn + A
}.
#[global] Arguments mkOutcome {A} _ _ _.
#[global] Arguments emitted {A} _.
#[global] Arguments after {A} _.
#[global] Arguments returned {A} _.

Definition M (A : Type) : Type := W -> outcome A.

Definition ret {A} (a : A) : M A := fun w => mkOutcome [] w (inr a).

Definition raise {A} (e : exn) : M A := fun w => mkOutcome [] w (inl e).

Definition bind {A B} (m : M A) (k : A -> M B) : M B :=
  fun w =>
    match m w with
    | mkOutcome out w' (inl e) => mkOutcome out w' (inl e)
    | mkOutcome out w' (inr a) =>
        match k a w' with
        | mkOutcome out' w'' r => mkOutcome (out ++ out') w'' r
        end
    end.

(** [yield x] *)
Definition yield (x : E) : M unit := fun w => mkOutcome [x] w (inr tt).

(** [try: body  except Exception as e: handler] *)
Definition try_except {A} (body : M A) (handler : exn -> M A) : M A :=
  fun w =>
    match body w with
    | mkOutcome out w' (inl e) =>
        match handler e w' with
        | mkOutcome out' w'' r => mkOutcome (out ++ out') w'' r
        end
    | mkOutcome out w' (inr a) => mkOutcome out w' (inr a)
    end.

Definition get : M W := fun w => mkOutcome [] w (inr w).

Definition put (w : W) : M unit := fun _ => mkOutcome [] w (inr tt).

(** A fallible pure step inside a coroutine. *)
Definition lift {A} (r : exn + A) : M A :=
  match r with inl e => raise e | inr a => ret a end.

(** [for x in xs: body x] *)
Fixpoint for_each {A} (xs : list A) (body : A -> M unit) : M unit :=
  match xs with
  | [] => ret tt
  | x :: xs' => bind (body x) (fun _ => for_each xs' body)
  end.

End Monad.

#[global] Arguments M : clear implicits.
#[global] Arguments outcome : clear implicits.
#[global] Arguments ret {W E A} a w /.
#[global] Arguments raise {W E A} e w /.
#[global] Arguments bind {W E A B} m k w /.
#[global] Arguments yield {W E} x w /.
#[global] Arguments try_except {W E A} body handler w /.
#[global] Arguments get {W E} w /.
#[global] Arguments put {W E} w _ /.
#[global] Arguments lift {W E A} !r /.

(** Steps of a coroutine are sequenced with [x <- m ;; k]; [x ← m; k] is
    kept for plain fallible computations. *)
Notation "x <- m ;; k" := (bind m (fun x => k))
  (at level 100, m at next level, right associativity).

End Effects.
Export Effects.

(** ** [agent_task_manager.py] *)

Module TaskManager.

(** What the manager does to its collaborators, in the order it does it. *)
Inductive call : Type :=
| CallUpsert (task_id : string)
| CallInvoke (query : value) (sessionId : string)
| CallStream (query : value) (sessionId : string).

(** [self.tasks], and the calls made so far. *)
Record world : Type := mkWorld {
  tasks : gmap string Task;
  trace : list call
}.

Abbreviation Co := (M world Response).

(** What [agent.stream(..)] produces when it is iterated: it ends, or it
    raises, or it hands over one more update. *)
Inductive upstream : Type :=
| Exhausted
| Fails (e : exn)
| Yields (item : value) (rest : upstream).

(** The upstream that hands over [items] and then goes on as [tail]. *)
Fixpoint updates_then (items : list value) (tail : upstream) : upstream :=
  match items with
  | [] => tail
  | item :: items' => Yields item (updates_then items' tail)
  end.

(** The updates that an upstream hands over before it ends or raises. *)
Fixpoint items_of (u : upstream) : list value :=
  match u with
  | Yields item rest => item :: items_of rest
  | _ => []
  end.

(** [self.agent] *)
Record Agent : Type := mkAgent {
  SUPPORTED_CONTENT_TYPES : list string;
  invoke : value -> string -> exn + value;
  stream : value -> string -> upstream
}.

(** The local variables of [_stream_generator] that the loop assigns;
    [None] is a variable that has not been assigned yet. *)
Record locals : Type := mkLocals {
  is_task_complete : option value;
  artifacts : option (option (list Artifact));
  task_state : option TaskState;
  data : option value;
  parts : option (list Part)
}.

Definition unassigned : locals := mkLocals None None None None None.

Definition set_is_task_complete (v : value) (l : locals) : locals :=
  mkLocals (Some v) (artifacts l) (task_state l) (data l) (parts l).
Definition set_artifacts (v : option (list Artifact)) (l : locals) : locals :=
  mkLocals (is_task_complete l) (Some v) (task_state l) (data l) (parts l).
Definition set_task_state (v : TaskState) (l : locals) : locals :=
  mkLocals (is_task_complete l) (artifacts l) (Some v) (data l) (parts l).
Definition set_data (v : value) (l : locals) : locals :=
  mkLocals (is_task_complete l) (artifacts l) (task_state l) (Some v) (parts l).
Definition set_parts (v : list Part) (l : locals) : locals :=
  mkLocals (is_task_complete l) (artifacts l) (task_state l) (data l) (Some v).

(** Reading a local variable. *)
Definition read {A} (var : string) (x : option A) : exn + A :=
  match x with Some a => inr a | None => inl (UnboundLocalError var) end.

(** [if artifacts:] *)
Definition truthy_list {A} (x : option (list A)) : bool :=
  match x with Some (_ :: _) => true | _ => false end.

Definition log (c : call) : Co unit :=
  fun w => mkOutcome [] (mkWorld (tasks w) (trace w ++ [c])) (inr tt).

(** [_get_user_query] *)
Definition _get_user_query (task_send_params : TaskSendParams) : exn + value :=
  match msg_parts (tsp_message task_send_params) with
  | [] => inl IndexError
  | TextPart text :: _ => inr text
  | DataPart _ :: _ => inl (AttributeError "text")
  end.

(** The assignments of [_update_store] to the task it found (lines 121-125):
    [task.status = status], and [task.artifacts.extend(artifacts)] on a list
    that is created when the task has none. *)
Definition updated (task : Task) (status : TaskStatus)
    (artifacts : option (list Artifact)) : Task :=
  let extended :=
    match artifacts with
    | Some new =>
        Some (match t_artifacts task with None => [] | Some old => old end
              ++ new)%list
    | None => t_artifacts task
    end in
  mkTask (t_id task) (t_sessionId task) status extended
         (t_history task) (t_metadata task).

(** [_update_store]: the task object in [self.tasks] is changed in place. *)
Definition _update_store (task_id : string) (status : TaskStatus)
    (artifacts : option (list Artifact)) : Co Task :=
  w <- get ;;
  match tasks w !! task_id with
  | None => raise (ValueError_not_found task_id)
  | Some task =>
      let task' := updated task status artifacts in
      _ <- put (mkWorld (<[task_id := task']> (tasks w)) (trace w)) ;;
      ret task'
  end.

(** Modelled from the spec: [upsert_task] is inherited from
    [InMemoryTaskManager], which is not among the sources.  "creates a Task
    if absent (state SUBMITTED, history = [initialMessage]) or returns the
    existing one unchanged." *)
Definition upsert_task (task_send_params : TaskSendParams) : Co Task :=
  _ <- log (CallUpsert (tsp_id task_send_params)) ;;
  w <- get ;;
  match tasks w !! tsp_id task_send_params with
  | Some task => ret task
  | None =>
      let task :=
        mkTask (tsp_id task_send_params) (tsp_sessionId task_send_params)
               (mkTaskStatus SUBMITTED None) None
               (Some [tsp_message task_send_params]) None in
      _ <- put (mkWorld (<[tsp_id task_send_params := task]> (tasks w)) (trace w)) ;;
      ret task
  end.

Section Engine.

(** [json.loads] on a string: the decoded value, or [None] when the string
    is not a JSON document. *)
Variable json_loads : string -> option value.

(** [utils.are_modalities_compatible]: "a pure function
    (acceptedTypes, supportedTypes) -> bool". *)
Variable are_modalities_compatible : option (list string) -> list string -> bool.

Variable agent : Agent.

(** [json.loads(v)] *)
Definition loads (v : value) : exn + value :=
  match v with
  | VStr s =>
      match json_loads s with Some d => inr d | None => inl JSONDecodeError end
  | _ => inl TypeError
  end.

(** One turn of the [async for] loop (lines 36-54). *)
Definition loop_body (item : value) (l : locals) : exn + locals :=
  c ← getitem item "is_task_complete";
  let l := set_is_task_complete c l in
  let l := set_artifacts None l in
  if negb (truthy c) then
    let l := set_task_state WORKING l in
    updates ← getitem item "updates";
    inr (set_parts [TextPart updates] l)
  else
    content ← getitem item "content";
    l ← (if is_dict content then
           has_response ← contains "response" content;
           has_result ← (if (has_response : bool)
                         then response ← getitem content "response";
                              contains "result" response
                         else inr false);
           l ← (if (has_result : bool) then
                  response ← getitem content "response";
                  result ← getitem response "result";
                  d ← loads result;
                  inr (set_task_state INPUT_REQUIRED (set_data d l))
                else
                  inr (set_task_state COMPLETED (set_data content l)));
           d ← read "data" (data l);
           inr (set_parts [DataPart d] l)
         else
           inr (set_parts [TextPart content] (set_task_state COMPLETED l)));
    p ← read "parts" (parts l);
    inr (set_artifacts (Some [mkArtifact p (Some 0%Z) (Some false)]) l).

(** [async for item in self.agent.stream(..): ...]: the loop has no [break],
    it runs until the upstream ends or something raises. *)
Fixpoint async_for (u : upstream) (l : locals) : exn + locals :=
  match u with
  | Exhausted => inr l
  | Fails e => inl e
  | Yields item rest => l' ← loop_body item l; async_for rest l'
  end.

(** The statements after the loop, still inside [try] (lines 55-83). *)
Definition after_loop (request : Request) (l : locals) : Co unit :=
  let task_send_params := req_params request in
  p <- lift (read "parts" (parts l)) ;;
  let message := mkMessage "agent" p None in
  s <- lift (read "task_state" (task_state l)) ;;
  let task_status := mkTaskStatus s (Some message) in
  a <- lift (read "artifacts" (artifacts l)) ;;
  _ <- _update_store (tsp_id task_send_params) task_status a ;;
  let task_update_event :=
    mkTaskStatusUpdateEvent (tsp_id task_send_params) task_status false None in
  _ <- yield (SendTaskStreamingResponse (req_id request) (StatusUpdate task_update_event)) ;;
  a <- lift (read "artifacts" (artifacts l)) ;;
  _ <- (if truthy_list a then
         for_each (match a with Some xs => xs | None => [] end)
           (fun artifact =>
              yield (SendTaskStreamingResponse (req_id request)
                       (ArtifactUpdate
                          (mkTaskArtifactUpdateEvent (tsp_id task_send_params)
                             artifact None))))
       else ret tt) ;;
  c <- lift (read "is_task_complete" (is_task_complete l)) ;;
  if truthy c then
    yield (SendTaskStreamingResponse (req_id request)
             (StatusUpdate
                (mkTaskStatusUpdateEvent (tsp_id task_send_params)
                   (mkTaskStatus (st_state task_status) None) true None)))
  else ret tt.

(** The response of the [except] clause. *)
Definition streaming_error (request : Request) : Response :=
  JSONRPCResponse (req_id request)
    (InternalError "An error occurred while streaming the response").

(** The body of [try] (lines 35-83). *)
Definition try_body (request : Request) (query : value) : Co unit :=
  let task_send_params := req_params request in
  _ <- log (CallStream query (tsp_sessionId task_send_params)) ;;
  l <- lift (async_for (stream agent query (tsp_sessionId task_send_params))
               unassigned) ;;
  after_loop request l.

(** [_stream_generator]: the responses it yields are the [emitted] of the
    run.  The query is computed before [try] is entered. *)
Definition _stream_generator (request : Request) : Co unit :=
  let task_send_params := req_params request in
  query <- lift (_get_user_query task_send_params) ;;
  try_except (try_body request query) (fun e => yield (streaming_error request)).

(** Modelled from the spec: [utils.new_incompatible_types_error] is not among
    the sources; it builds the "structured RPC error" for incompatible
    content types. *)
Definition new_incompatible_types_error (request_id : value) : Response :=
  JSONRPCResponse request_id ContentTypeNotSupportedError.

(** [_validate_request]: [None] when the function falls off its end. *)
Definition _validate_request (request : Request) : option Response :=
  let task_send_params := req_params request in
  if negb (are_modalities_compatible
             (tsp_acceptedOutputModes task_send_params)
             (SUPPORTED_CONTENT_TYPES agent))
  then Some (new_incompatible_types_error (req_id request))
  else None.

(** [_invoke] *)
Definition _invoke (request : Request) : Co Response :=
  let task_send_params := req_params request in
  query <- lift (_get_user_query task_send_params) ;;
  _ <- log (CallInvoke query (tsp_sessionId task_send_params)) ;;
  result <- (match invoke agent query (tsp_sessionId task_send_params) with
             | inl e => raise (ValueError_invoking e)
             | inr r => ret r
             end) ;;
  let p := [TextPart result] in
  missing <- lift (contains "MISSING_INFO:" result) ;;
  let s := if (missing : bool) then INPUT_REQUIRED else COMPLETED in
  task <- _update_store (tsp_id task_send_params)
            (mkTaskStatus s (Some (mkMessage "agent" p None)))
            (Some [mkArtifact p None None]) ;;
  ret (SendTaskResponse (req_id request) task).

(** [on_send_task] *)
Definition on_send_task (request : Request) : Co Response :=
  match _validate_request request with
  | Some error => ret error
  | None =>
      _ <- upsert_task (req_params request) ;;
      _invoke request
  end.

(** [on_send_task_subscribe] returns either the error response or the
    generator, which has not started to run. *)
Inductive subscription : Type :=
| Rejected (error : Response)
| Generator (g : Co unit).

Definition on_send_task_subscribe (request : Request) : Co subscription :=
  match _validate_request request with
  | Some error => ret (Rejected error)
  | None =>
      _ <- upsert_task (req_params request) ;;
      ret (Generator (_stream_generator request))
  end.

End Engine.

(** *** Vocabulary of the statements *)

(** The three responses that the generator builds (lines 58-63, 66-72 and
    74-83). *)
Definition status_event (request : Request) (s : TaskState) (p : list Part) : Response :=
  SendTaskStreamingResponse (req_id request)
    (StatusUpdate
       (mkTaskStatusUpdateEvent (tsp_id (req_params request))
          (mkTaskStatus s (Some (mkMessage "agent" p None))) false None)).

Definition artifact_event (request : Request) (artifact : Artifact) : Response :=
  SendTaskStreamingResponse (req_id request)
    (ArtifactUpdate
       (mkTaskArtifactUpdateEvent (tsp_id (req_params request)) artifact None)).

Definition final_event (request : Request) (s : TaskState) : Response :=
  SendTaskStreamingResponse (req_id request)
    (StatusUpdate
       (mkTaskStatusUpdateEvent (tsp_id (req_params request))
          (mkTaskStatus s None) true None)).

(** [Artifact(parts=parts, index=0, append=False)] *)
Definition terminal_artifact (p : list Part) : Artifact :=
  mkArtifact p (Some 0%Z) (Some false).

Definition as_status (r : Response) : option TaskStatusUpdateEvent :=
  match r with
  | SendTaskStreamingResponse _ (StatusUpdate e) => Some e
  | _ => None
  end.

Definition as_artifact (r : Response) : option TaskArtifactUpdateEvent :=
  match r with
  | SendTaskStreamingResponse _ (ArtifactUpdate e) => Some e
  | _ => None
  end.

Definition is_error (r : Response) : bool :=
  match r with JSONRPCResponse _ _ => true | _ => false end.

(** A non-final status event whose state is [WORKING]. *)
Definition is_working_event (r : Response) : bool :=
  match as_status r with
  | Some e => negb (sue_final e) && bool_decide (st_state (sue_status e) = WORKING)
  | None => false
  end.

(** An update that signals "not complete" and carries the text [u]. *)
Definition progress_update (item : value) (u : value) : Prop :=
  exists c, getitem item "is_task_complete" = inr c /\ truthy c = false /\
            getitem item "updates" = inr u.

(** An update that signals "complete" and carries [content]. *)
Definition complete_update (item : value) (content : value) : Prop :=
  exists c, getitem item "is_task_complete" = inr c /\ truthy c = true /\
            getitem item "content" = inr content.

Definition signals_not_complete (item : value) : bool :=
  match getitem item "is_task_complete" with
  | inr c => negb (truthy c)
  | inl _ => false
  end.

Definition signals_complete (item : value) : bool :=
  match getitem item "is_task_complete" with
  | inr c => truthy c
  | inl _ => false
  end.

(** The loop has assigned the variables that the rest of the generator
    reads, and consistently so. *)
Definition assigned (l : locals) : Prop :=
  exists c s p,
    is_task_complete l = Some c /\ task_state l = Some s /\ parts l = Some p /\
    artifacts l = Some (if truthy c then Some [terminal_artifact p] else None) /\
    (truthy c = false -> s = WORKING) /\
    (truthy c = true -> s = COMPLETED \/ s = INPUT_REQUIRED).

(** The terminal-state rule in the spec's words, with the split made where
    the code makes it (a ["result"] found under ["response"], or not):
    [terminal_rule json_loads content s part] reads "a complete update with
    this content selects state [s] and the artifact part [part]". *)
Inductive terminal_rule (json_loads : string -> option value) :
    value -> TaskState -> Part -> Prop :=
| rule_input_required d rd text decoded :
    assoc "response" d = Some (VDict rd) ->
    assoc "result" rd = Some (VStr text) ->
    json_loads text = Some decoded ->
    terminal_rule json_loads (VDict d) INPUT_REQUIRED (DataPart decoded)
| rule_no_response d :
    assoc "response" d = None ->
    terminal_rule json_loads (VDict d) COMPLETED (DataPart (VDict d))
| rule_no_result d response :
    assoc "response" d = Some response ->
    contains "result" response = inr false ->
    terminal_rule json_loads (VDict d) COMPLETED (DataPart (VDict d))
| rule_text content :
    is_dict content = false ->
    terminal_rule json_loads content COMPLETED (TextPart content).

(** The world in which the loop runs: the call of [agent.stream] is on the
    trace. *)
Definition streaming (w : world) (query : value) (sessionId : string) : world :=
  mkWorld (tasks w) (trace w ++ [CallStream query sessionId]).

End TaskManager.

(** ** Sample data for the task manager *)

Module Samples.
Import TaskManager.

(** The double quote character, and the JSON document [{"x":1}]. *)
Definition dq : string := String "034"%char EmptyString.
Definition sample_json : string := "{" ++ dq ++ "x" ++ dq ++ ":1}".

(** A decoder that knows this one document. *)
Definition sample_loads (s : string) : option value :=
  if String.eqb s sample_json then Some (VDict [("x", VInt 1)]) else None.

(** Compatible when nothing is asked for or some asked type is supported. *)
Definition sample_compatible (accepted : option (list string))
    (supported : list string) : bool :=
  match accepted with
  | None | Some [] => true
  | Some asked => existsb (fun a => existsb (String.eqb a) supported) asked
  end.

(** An agent whose answers do not depend on the query. *)
Definition sample_agent (reply : exn + value) (updates : upstream) : Agent :=
  mkAgent ["text"] (fun _ _ => reply) (fun _ _ => updates).

(** [{"is_task_complete": False, "updates": text}] *)
Definition progress (text : string) : value :=
  VDict [("is_task_complete", VBool false); ("updates", VStr text)].

(** [{"is_task_complete": True, "content": content}] *)
Definition terminal (content : value) : value :=
  VDict [("is_task_complete", VBool true); ("content", content)].

Definition sample_params (accepted : option (list string)) : TaskSendParams :=
  mkTaskSendParams "task-1" "session-1"
    (mkMessage "user" [TextPart (VStr "draft a post")] None) accepted None.

Definition sample_request : Request := mkRequest (VInt 7) (sample_params (Some ["text"])).

Definition image_request : Request := mkRequest (VInt 8) (sample_params (Some ["image"])).

Definition sample_task : Task :=
  mkTask "task-1" "session-1" (mkTaskStatus SUBMITTED None) None
    (Some [mkMessage "user" [TextPart (VStr "draft a post")] None]) None.

Definition empty_world : world := mkWorld ∅ [].

(** The world after the upsert of the sample request. *)
Definition sample_world : world :=
  mkWorld {[ "task-1" := sample_task ]} [CallUpsert "task-1"].

(** Three updates: two that signal "not complete", then a terminal one. *)
Definition three_updates : upstream :=
  Yields (progress "thinking")
    (Yields (progress "writing") (Yields (terminal (VStr "done")) Exhausted)).

(** A terminal update whose ["result"] is a mapping, not a JSON-encoded
    string. *)
Definition structured_result : value :=
  VDict [("response", VDict [("result", VDict [("x", VInt 1)])])].

(** A terminal update whose "result" is the JSON document above. *)
Definition encoded_result : value :=
  VDict [("response", VDict [("result", VStr sample_json)])].

End Samples.

(** ** [remote_agent_connection.py] *)

Module RemoteAgent.

(** A metadata dict, and the store of the dicts that objects refer to:
    [d.update(..)] and [d[k] = v] change a dict for every object that holds
    a reference to it; the [dict] constructor makes a new one. *)
Abbreviation dict := (gmap string value).
Abbreviation heap := (gmap loc dict).

(** The dict behind a reference. *)
Definition deref (h : heap) (l : loc) : dict := default ∅ (h !! l).

(** An attribute that an object may or may not have ([hasattr]). *)
Inductive attr (A : Type) : Type :=
| NoAttr
| Attr (a : A).
#[global] Arguments NoAttr {A}.
#[global] Arguments Attr {A} a.

(** [response.result]: a task, one of the two update events, or [None]. *)
Inductive payload : Type :=
| PNone
| PTask (t : Task)
| PStatus (e : TaskStatusUpdateEvent)
| PArtifact (e : TaskArtifactUpdateEvent).

(** Objects on which [merge_metadata] may find a [metadata] attribute, with
    the assignment [o.metadata = v] for those that have it. *)
Class HasMetadata (T : Type) : Type := {
  metadata_of : T -> attr (option loc);
  with_metadata : option loc -> T -> T;
  metadata_assigned : forall v o old,
    metadata_of o = Attr old -> metadata_of (with_metadata v o) = Attr v
}.

#[global] Instance Message_metadata : HasMetadata Message.
Proof.
  refine {| metadata_of m := Attr (msg_metadata m);
            with_metadata v m := mkMessage (msg_role m) (msg_parts m) v |}.
  reflexivity.
Defined.

#[global] Instance TaskSendParams_metadata : HasMetadata TaskSendParams.
Proof.
  refine {| metadata_of p := Attr (tsp_metadata p);
            with_metadata v p :=
              mkTaskSendParams (tsp_id p) (tsp_sessionId p) (tsp_message p)
                (tsp_acceptedOutputModes p) v |}.
  reflexivity.
Defined.

#[global] Instance payload_metadata : HasMetadata payload.
Proof.
  refine {| metadata_of r :=
              match r with
              | PNone => NoAttr
              | PTask t => Attr (t_metadata t)
              | PStatus e => Attr (sue_metadata e)
              | PArtifact e => Attr (aue_metadata e)
              end;
            with_metadata v r :=
              match r with
              | PNone => PNone
              | PTask t =>
                  PTask (mkTask (t_id t) (t_sessionId t) (t_status t)
                           (t_artifacts t) (t_history t) v)
              | PStatus e =>
                  PStatus (mkTaskStatusUpdateEvent (sue_id e) (sue_status e)
                             (sue_final e) v)
              | PArtifact e =>
                  PArtifact (mkTaskArtifactUpdateEvent (aue_id e) (aue_artifact e) v)
              end |}.
  intros v [| | |] old; cbn; intros; congruence.
Defined.

(** [bool(o.metadata)]: neither [None] nor an empty dict. *)
Definition truthy_metadata (h : heap) (m : option loc) : bool :=
  match m with
  | None => false
  | Some l => negb (bool_decide (deref h l = ∅))
  end.

(** [merge_metadata(target, source)]: the heap and the target after the
    call. *)
Definition merge_metadata {T S : Type} `{HasMetadata T} `{HasMetadata S}
    (target : T) (source : S) (h : heap) : heap * T :=
  match metadata_of target, metadata_of source with
  | Attr tm, Attr sm =>
      if truthy_metadata h tm && truthy_metadata h sm then
        (* target.metadata.update(source.metadata) *)
        match tm, sm with
        | Some lt, Some ls => (<[lt := deref h ls ∪ deref h lt]> h, target)
        | _, _ => (h, target)
        end
      else if truthy_metadata h sm then
        (* target.metadata = a new dict with the items of source.metadata *)
        match sm with
        | Some ls =>
            let l := fresh (dom h) in
            (<[l := deref h ls]> h, with_metadata (Some l) target)
        | None => (h, target)
        end
      else (h, target)
  | _, _ => (h, target)
  end.

(** The mapping that [o.metadata] denotes, when it is one. *)
Definition mapping_of {T : Type} `{HasMetadata T} (h : heap) (o : T) : option dict :=
  match metadata_of o with
  | Attr (Some l) => Some (deref h l)
  | _ => None
  end.

(** [hasattr(result, 'status')] and the attribute. *)
Definition status_of (result : payload) : attr TaskStatus :=
  match result with
  | PTask t => Attr (t_status t)
  | PStatus e => Attr (sue_status e)
  | _ => NoAttr
  end.

(** The payload whose status message is now [m] (the message is an object
    inside the payload: what is done to it is seen through the payload). *)
Definition with_message (m : Message) (result : payload) : payload :=
  match result with
  | PTask t =>
      PTask (mkTask (t_id t) (t_sessionId t)
               (mkTaskStatus (st_state (t_status t)) (Some m))
               (t_artifacts t) (t_history t) (t_metadata t))
  | PStatus e =>
      PStatus (mkTaskStatusUpdateEvent (sue_id e)
                 (mkTaskStatus (st_state (sue_status e)) (Some m))
                 (sue_final e) (sue_metadata e))
  | _ => result
  end.

(** [response.result.status.message], when the three tests of lines 62-66
    pass. *)
Definition message_of (result : payload) : option Message :=
  match status_of result with
  | Attr status => st_message status
  | NoAttr => None
  end.

(** [hasattr(result, 'final') and result.final] *)
Definition is_final (result : payload) : bool :=
  match result with
  | PStatus e => sue_final e
  | _ => false
  end.

(** [AgentCard]: the descriptor of the remote agent. *)
Record AgentCard : Type := mkAgentCard {
  card_name : string;
  card_url : string;
  card_streaming : bool          (* card.capabilities.streaming *)
}.

(** What the remote stream produces when it is iterated. *)
Inductive remote : Type :=
| Ended
| Broken (e : exn)
| Next (result : payload) (rest : remote).

(** The stream that delivers [results] and then goes on as [tail]. *)
Fixpoint results_then (results : list payload) (tail : remote) : remote :=
  match results with
  | [] => tail
  | r :: rs => Next r (results_then rs tail)
  end.

(** [self.agent_client] *)
Record A2AClient : Type := mkA2AClient {
  client_send_task_streaming : TaskSendParams -> remote;
  client_send_task : TaskSendParams -> exn + payload
}.

Section Dispatcher.

(** The state that the caller's callback keeps. *)
Variable S : Type.

(** [str(uuid.uuid4())]: the [n]-th identifier that the generator hands out. *)
Variable uuid4 : nat -> string.

Variable agent_client : A2AClient.
Variable card : AgentCard.

(** The dicts, the number of identifiers drawn so far, and the callback's
    state. *)
Record world : Type := mkWorld {
  dicts : heap;
  drawn : nat;
  callback_state : S
}.

(** A coroutine of the connection; what it "emits" is the arguments that the
    callback was called with. *)
Abbreviation Co := (M world payload).

(** [TaskUpdateCallback]: given its state and the dicts, the callback sees
    the payload and the card and returns a task.  The callback is the
    caller's: it is taken to return, and to leave the dicts alone. *)
Definition TaskUpdateCallback : Type := S -> heap -> payload -> AgentCard -> S * Task.

(** [task_callback(arg, self.card)] *)
Definition call (task_callback : TaskUpdateCallback) (arg : payload) : Co Task :=
  fun w =>
    let '(s, task) := task_callback (callback_state w) (dicts w) arg card in
    mkOutcome [arg] (mkWorld (dicts w) (drawn w) s) (inr task).

(** [merge_metadata(target, source)] as a step. *)
Definition merge {T U : Type} `{HasMetadata T} `{HasMetadata U}
    (target : T) (source : U) : Co T :=
  fun w =>
    let '(h, target') := merge_metadata target source (dicts w) in
    mkOutcome [] (mkWorld h (drawn w) (callback_state w)) (inr target').

(** Lines 68-73 (and 90-95), on [m = response.result.status.message]:
    [[
      if not m.metadata: m.metadata = {}
      if 'message_id' in m.metadata:
          m.metadata['last_message_id'] = m.metadata['message_id']
      m.metadata['message_id'] = str(uuid.uuid4())
    ]] *)
Definition chain_message_id (m : Message) : Co Message :=
  fun w =>
    let h := dicts w in
    let '(h, l) :=
      match msg_metadata m with
      | Some l =>
          if truthy_metadata h (Some l) then (h, l)
          else let l' := fresh (dom h) in (<[l' := ∅]> h, l')
      | None => let l' := fresh (dom h) in (<[l' := ∅]> h, l')
      end in
    let d := deref h l in
    let d :=
      match d !! "message_id" with
      | Some old => <["last_message_id" := old]> d
      | None => d
      end in
    let d := <["message_id" := VStr (uuid4 (drawn w))]> d in
    mkOutcome [] (mkWorld (<[l := d]> h) (Datatypes.S (drawn w)) (callback_state w))
      (inr (with_metadata (Some l) m)).

(** Lines 59-73 (and 83-95): what is done to [response.result] before the
    callback sees it. *)
Definition reconcile (request : TaskSendParams) (result : payload) : Co payload :=
  result <- merge result request ;;
  match status_of result with
  | Attr status =>
      match st_message status with
      | Some m =>
          m <- merge m (tsp_message request) ;;
          m <- chain_message_id m ;;
          ret (with_message m result)
      | None => ret result
      end
  | NoAttr => ret result
  end.

(** The [async for] loop of the streaming path (lines 56-78): the task
    returned by the last call of the callback, and what is left of the
    remote stream when the loop ends. *)
Fixpoint consume (request : TaskSendParams) (task_callback : option TaskUpdateCallback)
    (responses : remote) (task : option Task) : Co (option Task * remote) :=
  match responses with
  | Ended => ret (task, Ended)
  | Broken e => raise e
  | Next result rest =>
      result <- reconcile request result ;;
      task <- (match task_callback with
               | Some callback => t <- call callback result ;; ret (Some t)
               | None => ret task
               end) ;;
      if is_final result then ret (task, rest)
      else consume request task_callback rest task
  end.

(** The snapshot that the callback is given before the remote call
    (lines 45-53). *)
Definition submitted (request : TaskSendParams) : payload :=
  PTask (mkTask (tsp_id request) (tsp_sessionId request)
           (mkTaskStatus SUBMITTED (Some (tsp_message request)))
           None (Some [tsp_message request]) None).

(** [send_task]: what it returns ([Task | None] as a payload), and what it
    has left unread of the remote stream. *)
Definition send_task (request : TaskSendParams)
    (task_callback : option TaskUpdateCallback) : Co (payload * remote) :=
  if card_streaming card then
    let task : option Task := None in
    _ <- (match task_callback with
          | Some callback => _ <- call callback (submitted request) ;; ret tt
          | None => ret tt
          end) ;;
    end_of_loop <-
      consume request task_callback (client_send_task_streaming agent_client request)
        task ;;
    ret (match fst end_of_loop with Some t => PTask t | None => PNone end,
         snd end_of_loop)
  else
    result <- lift (client_send_task agent_client request) ;;
    result <- reconcile request result ;;
    _ <- (match task_callback with
          | Some callback => _ <- call callback result ;; ret tt
          | None => ret tt
          end) ;;
    ret (result, Ended).

End Dispatcher.

(** The entries of a message's dict after lines 68-73, given the entries
    [old] that it had and the identifier [id] that was drawn. *)
Definition chained (old : dict) (id : string) : dict :=
  <["message_id" := VStr id]>
    (match old !! "message_id" with
     | Some previous => <["last_message_id" := previous]> old
     | None => old
     end).

(** The entries of a message's metadata: none when it is [None]. *)
Definition entries (h : heap) (m : Message) : dict :=
  match msg_metadata m with
  | Some l => deref h l
  | None => ∅
  end.

#[global] Arguments mkWorld {S} _ _ _.
#[global] Arguments dicts {S} _.
#[global] Arguments drawn {S} _.
#[global] Arguments callback_state {S} _.

End RemoteAgent.

(** ** Sample data for the remote agent connection *)

Module RemoteSamples.
Import RemoteAgent.

(** Identifiers that never repeat: [n] strokes. *)
Fixpoint sample_uuid4 (n : nat) : string :=
  match n with
  | O => "id-"
  | S k => sample_uuid4 k ++ "I"
  end.

(** Dict 1 is the metadata of the request's message, it carries the
    identifier of the previous exchange; dict 2 is an empty dict. *)
Definition sample_dicts : heap :=
  {[ 1%positive := {[ "message_id" := VStr "m-0" ]}; 2%positive := ∅ ]}.

Definition sample_message : Message :=
  mkMessage "user" [TextPart (VStr "draft a post")] (Some 1%positive).

Definition sample_request : TaskSendParams :=
  mkTaskSendParams "task-1" "session-1" sample_message None None.

Definition sample_card : AgentCard := mkAgentCard "writer" "http://localhost:10000" true.

(** A status update of the remote agent, with a message of its own. *)
Definition sample_update (s : TaskState) (text : string) (final : bool) : payload :=
  PStatus (mkTaskStatusUpdateEvent "task-1"
             (mkTaskStatus s (Some (mkMessage "agent" [TextPart (VStr text)] None)))
             final None).

Definition sample_artifact_update : payload :=
  PArtifact (mkTaskArtifactUpdateEvent "task-1"
               (mkArtifact [TextPart (VStr "late")] (Some 0%Z) (Some false)) None).

(** The remote delivers a working update, the final update, and would have
    one more result after it. *)
Definition sample_client : A2AClient :=
  mkA2AClient
    (fun _ =>
       Next (sample_update WORKING "writing" false)
         (Next (sample_update COMPLETED "done" true)
            (Next sample_artifact_update Ended)))
    (fun _ => inl (Raised "not used")).

(** A callback that counts its calls and answers with a task that carries
    the state of what it was shown. *)
Definition sample_callback : TaskUpdateCallback nat :=
  fun calls _ arg _ =>
    (S calls,
     mkTask "task-1" "session-1"
       (match status_of arg with
        | Attr status => mkTaskStatus (st_state status) None
        | NoAttr => mkTaskStatus WORKING None
        end)
       None None None).

Definition sample_world : world nat := mkWorld sample_dicts 0 0.

(** A message whose metadata is the empty dict 2, and one without
    metadata. *)
Definition empty_metadata_message : Message := mkMessage "user" [] (Some 2%positive).
Definition bare_message : Message := mkMessage "agent" [] None.

End RemoteSamples.

(** ** Vocabulary of the further properties *)

Module TaskManagerMore.
Import TaskManager.

(** Every task of the store is filed under its own identifier. *)
Definition keyed (store : gmap string Task) : Prop :=
  forall k t, store !! k = Some t -> t_id t = k.

(** [task.artifacts] as a list: empty when it is [None]. *)
Definition artifacts_of (t : Task) : list Artifact :=
  match t_artifacts t with Some l => l | None => [] end.

(** An update that one turn of the loop cannot read: it has no
    ["is_task_complete"], or it signals "not complete" and has no
    ["updates"], or it signals "complete" and has no ["content"]. *)
Definition unreadable (item : value) : bool :=
  match getitem item "is_task_complete" with
  | inl _ => true
  | inr c =>
      match getitem item (if truthy c then "content" else "updates") with
      | inl _ => true
      | inr _ => false
      end
  end.

(** Two calls of [_update_store] give the artifacts of the first, then those
    of the second. *)
Definition both (a1 a2 : option (list Artifact)) : option (list Artifact) :=
  match a1, a2 with
  | Some x, Some y => Some (x ++ y)%list
  | Some x, None => Some x
  | None, a => a
  end.

(** Two states of the local variables that agree on the variables read after
    the loop. *)
Definition same_view (l l' : locals) : Prop :=
  is_task_complete l = is_task_complete l' /\ artifacts l = artifacts l' /\
  task_state l = task_state l' /\ parts l = parts l'.

End TaskManagerMore.

Module RemoteAgentMore.
Import RemoteAgent.

(** A payload without its references to metadata dicts: of the payload
    itself and of its status message. *)
Definition message_content (m : Message) : Message :=
  mkMessage (msg_role m) (msg_parts m) None.

Definition bare (result : payload) : payload :=
  match result with
  | PNone => PNone
  | PTask t =>
      PTask (mkTask (t_id t) (t_sessionId t)
               (mkTaskStatus (st_state (t_status t))
                  (option_map message_content (st_message (t_status t))))
               (t_artifacts t) (t_history t) None)
  | PStatus e =>
      PStatus (mkTaskStatusUpdateEvent (sue_id e)
                 (mkTaskStatus (st_state (sue_status e))
                    (option_map message_content (st_message (sue_status e))))
                 (sue_final e) None)
  | PArtifact e =>
      PArtifact (mkTaskArtifactUpdateEvent (aue_id e) (aue_artifact e) None)
  end.

(** The dict at [l] is neither the metadata of the payload nor that of its
    status message. *)
Definition apart (l : loc) (result : payload) : Prop :=
  metadata_of result <> Attr (Some l) /\
  forall m, message_of result = Some m -> msg_metadata m <> Some l.

(** The results that the loop of [send_task] takes from a remote stream: up
    to the first final one, or to the point where the stream ends or
    breaks. *)
Fixpoint consumed (rs : remote) : list payload :=
  match rs with
  | Next result rest => result :: (if is_final result then [] else consumed rest)
  | _ => []
  end.

(** The results that [send_task] gets from the client for a request: the
    consumed part of the stream on a streaming card, the one response
    otherwise (none when the call raises). *)
Definition delivered (agent_client : A2AClient) (card : AgentCard)
    (request : TaskSendParams) : list payload :=
  if card_streaming card then
    consumed (client_send_task_streaming agent_client request)
  else
    match client_send_task agent_client request with
    | inr result => [result]
    | inl _ => []
    end.

(** The payload has a status with a message (the tests of lines 62-66). *)
Definition has_message (result : payload) : bool :=
  match message_of result with Some _ => true | None => false end.

End RemoteAgentMore.

(** ** Further sample data *)

Module MoreSamples.
Import TaskManager RemoteAgent Samples RemoteSamples.

(** An update without ["is_task_complete"]. *)
Definition malformed : value := VDict [("updates", VStr "thinking")].

(** A card of an agent that does not stream, and a client that answers the
    one call with a completed status. *)
Definition unary_card : AgentCard :=
  mkAgentCard "writer" "http://localhost:10000" false.

Definition unary_client : A2AClient :=
  mkA2AClient (fun _ => Ended) (fun _ => inr (sample_update COMPLETED "done" true)).

(** A client whose stream breaks after a working update. *)
Definition broken_client : A2AClient :=
  mkA2AClient
    (fun _ =>
       Next (sample_update WORKING "writing" false) (Broken (Raised "connection lost")))
    (fun _ => inl (Raised "not used")).

End MoreSamples.

(** * Properties of the task manager *)

Section TaskManagerProperties.
Import TaskManager.
Local Open Scope list_scope.

Variable json_loads : string -> option value.
Variable are_modalities_compatible : option (list string) -> list string -> bool.
Variable agent : Agent.

Ltac run_co := unfold log; cbn.

(** *** The loop *)

Lemma loop_body_assigns item l l' :
  loop_body json_loads item l = inr l' -> assigned l'.
Proof.
  unfold loop_body, assigned, terminal_artifact.
  destruct (getitem item "is_task_complete") as [e|c]; cbn; [discriminate|].
  destruct (truthy c) eqn:Ht; cbn.
  - destruct (getitem item "content") as [e|content]; cbn; [discriminate|].
    destruct (is_dict content); cbn.
    + destruct (contains "response" content) as [e|[]]; cbn; try discriminate.
      * destruct (getitem content "response") as [e|r]; cbn; [discriminate|].
        destruct (contains "result" r) as [e|[]]; cbn; try discriminate.
        -- destruct (getitem r "result") as [e|x]; cbn; [discriminate|].
           destruct (loads json_loads x) as [e|d]; cbn; [discriminate|].
           intros [= <-]; cbn; eexists _, _, _; rewrite Ht; repeat split; eauto; congruence.
        -- intros [= <-]; cbn; eexists _, _, _; rewrite Ht; repeat split; eauto; congruence.
      * intros [= <-]; cbn; eexists _, _, _; rewrite Ht; repeat split; eauto; congruence.
    + intros [= <-]; cbn; eexists _, _, _; rewrite Ht; repeat split; eauto; congruence.
  - destruct (getitem item "updates") as [e|u]; cbn; [discriminate|].
    intros [= <-]; cbn; eexists _, _, _; rewrite Ht; repeat split; eauto; congruence.
Qed.

(** A "not complete" update: [WORKING], one text part, no artifacts. *)
Lemma loop_body_progress item u l :
  progress_update item u ->
  exists l', loop_body json_loads item l = inr l' /\
    (exists c, is_task_complete l' = Some c /\ truthy c = false) /\
    task_state l' = Some WORKING /\ parts l' = Some [TextPart u] /\
    artifacts l' = Some None.
Proof.
  intros (c & Hc & Ht & Hu). unfold loop_body.
  rewrite Hc; cbn. rewrite Ht; cbn. rewrite Hu; cbn.
  eexists; split; [reflexivity|]. cbn. repeat split; eauto.
Qed.

(** When the loop ends normally it has either not run at all or assigned
    every variable. *)
Lemma async_for_assigns u l l' :
  async_for json_loads u l = inr l' -> l' = l \/ assigned l'.
Proof.
  revert l. induction u as [|e|item rest IH]; intros l; cbn.
  - intros [= ->]. now left.
  - discriminate.
  - destruct (loop_body json_loads item l) as [e|l1] eqn:Hb; cbn; [discriminate|].
    intros H. destruct (IH _ H) as [->|Ha]; right; eauto using loop_body_assigns.
Qed.

Lemma async_for_app items tail l :
  async_for json_loads (updates_then items tail) l =
    match async_for json_loads (updates_then items Exhausted) l with
    | inl e => inl e
    | inr l' => async_for json_loads tail l'
    end.
Proof.
  revert l. induction items as [|item items IH]; intros l; cbn; [reflexivity|].
  destruct (loop_body json_loads item l); cbn; auto.
Qed.

(** Updates that all signal "not complete" never make the loop raise. *)
Lemma async_for_progress items l :
  Forall (fun item => exists u, progress_update item u) items ->
  exists l', async_for json_loads (updates_then items Exhausted) l = inr l'.
Proof.
  intros H. revert l. induction H as [|item items [u Hu] _ IH]; intros l; cbn; eauto.
  destruct (loop_body_progress item u l Hu) as (l1 & -> & _). cbn. apply IH.
Qed.

(** *** After the loop *)

Lemma after_loop_unassigned request w :
  after_loop request unassigned w = mkOutcome [] w (inl (UnboundLocalError "parts")).
Proof. reflexivity. Qed.

Lemma after_loop_run request l w c s p :
  is_task_complete l = Some c -> task_state l = Some s -> parts l = Some p ->
  artifacts l = Some (if truthy c then Some [terminal_artifact p] else None) ->
  after_loop request l w =
    match tasks w !! tsp_id (req_params request) with
    | None => mkOutcome [] w (inl (ValueError_not_found (tsp_id (req_params request))))
    | Some t =>
        mkOutcome
          (status_event request s p ::
           if truthy c
           then [artifact_event request (terminal_artifact p); final_event request s]
           else [])
          (mkWorld
             (<[tsp_id (req_params request) :=
                  updated t (mkTaskStatus s (Some (mkMessage "agent" p None)))
                    (if truthy c then Some [terminal_artifact p] else None)]>
                (tasks w))
             (trace w))
          (inr tt)
    end.
Proof.
  intros Hc Hs Hp Ha. unfold after_loop. rewrite Hc, Hs, Hp, Ha.
  unfold _update_store. run_co.
  destruct (tasks w !! tsp_id (req_params request)) as [t|] eqn:Ht; cbn.
  - destruct (truthy c); cbn; reflexivity.
  - reflexivity.
Qed.

(** *** The generator *)

Lemma try_body_run request query w :
  try_body json_loads agent request query w =
    match async_for json_loads
            (stream agent query (tsp_sessionId (req_params request))) unassigned with
    | inl e =>
        mkOutcome [] (streaming w query (tsp_sessionId (req_params request))) (inl e)
    | inr l =>
        after_loop request l (streaming w query (tsp_sessionId (req_params request)))
    end.
Proof.
  unfold try_body. run_co.
  destruct (async_for _ _ _) as [e|l]; cbn; [reflexivity|].
  destruct (after_loop request l _) as [out w' [e|[]]]; reflexivity.
Qed.

Lemma stream_generator_run request query w :
  _get_user_query (req_params request) = inr query ->
  _stream_generator json_loads agent request w =
    let r := try_body json_loads agent request query w in
    match returned r with
    | inl _ => mkOutcome (emitted r ++ [streaming_error request]) (after r) (inr tt)
    | inr _ => r
    end.
Proof.
  intros Hq. unfold _stream_generator. rewrite Hq. cbn -[try_body].
  destruct (try_body json_loads agent request query w) as [out w' [e|[]]]; cbn;
    reflexivity.
Qed.


(** The variable [is_task_complete] after a turn of the loop is the update's
    own flag. *)
Lemma loop_body_flag item l l' c :
  getitem item "is_task_complete" = inr c ->
  loop_body json_loads item l = inr l' -> is_task_complete l' = Some c.
Proof.
  intros Hc. unfold loop_body. rewrite Hc; cbn.
  destruct (truthy c); cbn.
  - destruct (getitem item "content") as [e|content]; cbn; [discriminate|].
    destruct (is_dict content); cbn.
    + destruct (contains "response" content) as [e|[]]; cbn; try discriminate.
      * destruct (getitem content "response") as [e|r]; cbn; [discriminate|].
        destruct (contains "result" r) as [e|[]]; cbn; try discriminate.
        -- destruct (getitem r "result") as [e|x]; cbn; [discriminate|].
           destruct (loads json_loads x) as [e|d]; cbn; [discriminate|].
           now intros [= <-].
        -- now intros [= <-].
      * now intros [= <-].
    + now intros [= <-].
  - destruct (getitem item "updates") as [e|u]; cbn; [discriminate|].
    now intros [= <-].
Qed.

(** Every run of the generator that gets past [_get_user_query] has one of
    two shapes: the [try] block raised before anything was yielded, the
    store is as it was and the error response is the only one; or nothing
    raised, and the responses are the status event of the last update,
    followed, when that update signals "complete", by its artifact and the
    final event. *)
Lemma generator_shape request query w :
  _get_user_query (req_params request) = inr query ->
  let body := try_body json_loads agent request query w in
  let r := _stream_generator json_loads agent request w in
  returned r = inr tt /\
  ((exists e, returned body = inl e /\
      emitted r = [streaming_error request] /\ tasks (after r) = tasks w) \/
   (exists l c s p t,
      async_for json_loads
        (stream agent query (tsp_sessionId (req_params request))) unassigned = inr l /\
      is_task_complete l = Some c /\ task_state l = Some s /\ parts l = Some p /\
      (truthy c = false -> s = WORKING) /\
      (truthy c = true -> s = COMPLETED \/ s = INPUT_REQUIRED) /\
      tasks w !! tsp_id (req_params request) = Some t /\
      returned body = inr tt /\
      emitted r =
        status_event request s p ::
        (if truthy c
         then [artifact_event request (terminal_artifact p); final_event request s]
         else []) /\
      tasks (after r) =
        <[tsp_id (req_params request) :=
            updated t (mkTaskStatus s (Some (mkMessage "agent" p None)))
              (if truthy c then Some [terminal_artifact p] else None)]> (tasks w))).
Proof.
  intros Hq body r. subst body r.
  rewrite (stream_generator_run _ _ _ Hq). cbv zeta.
  rewrite try_body_run.
  destruct (async_for json_loads _ unassigned) as [e|l] eqn:Hloop; cbn.
  { split; [reflexivity|]. left. eauto. }
  destruct (async_for_assigns _ _ _ Hloop) as [->|(c & s & p & Hc & Hs & Hp & Ha & Hw & Ht)].
  { rewrite after_loop_unassigned; cbn. split; [reflexivity|]. left. eauto. }
  rewrite (after_loop_run _ _ _ _ _ _ Hc Hs Hp Ha); cbn.
  destruct (tasks w !! tsp_id (req_params request)) as [t|] eqn:Hlook; cbn.
  - split; [reflexivity|]. right. exists l, c, s, p, t. repeat split; auto.
  - split; [reflexivity|]. left. eauto.
Qed.


(** *** Ordering of the streamed events *)

(** C3. For an upstream whose last update signals "complete": in the
    responses of [_stream_generator], every artifact event comes after a
    non-final status event whose message carries the artifact's parts; an
    event flagged final is the last response and its status has no message;
    and when nothing raises, the responses are exactly the terminal status
    event, the artifact event and the final event, in this order. *)
Theorem streaming_event_order request query w items last :
  _get_user_query (req_params request) = inr query ->
  stream agent query (tsp_sessionId (req_params request)) =
    updates_then items (Yields last Exhausted) ->
  signals_complete last = true ->
  let out := emitted (_stream_generator json_loads agent request w) in
  (forall i a, out !! i ≫= as_artifact = Some a ->
     exists j e, j < i /\ out !! j ≫= as_status = Some e /\ sue_final e = false /\
       st_message (sue_status e) =
         Some (mkMessage "agent" (art_parts (aue_artifact a)) None)) /\
  (forall i e, out !! i ≫= as_status = Some e -> sue_final e = true ->
     S i = length out /\ st_message (sue_status e) = None) /\
  (returned (try_body json_loads agent request query w) = inr tt ->
     exists s p,
       (s = COMPLETED \/ s = INPUT_REQUIRED) /\
       out = [status_event request s p;
              artifact_event request (terminal_artifact p);
              final_event request s]).
Proof.
  intros Hq Hstream Hlast out.
  assert (exists c, getitem last "is_task_complete" = inr c /\ truthy c = true)
    as (c & Hc & Ht).
  { unfold signals_complete in Hlast.
    destruct (getitem last "is_task_complete") as [e|c]; [discriminate|eauto]. }
  destruct (generator_shape request query w Hq) as [_ Hshape]. fold out in Hshape.
  destruct Hshape as [(e & He & Hout & _)|
    (l & c' & s & p & t & Hloop & Hc' & Hs & Hp & Hw & Hterm & Hlook & Hret & Hout & _)].
  - rewrite Hout. split; [|split].
    + intros [|i] a H; cbn in H; discriminate.
    + intros [|i] e0 H; cbn in H; discriminate.
    + rewrite He. discriminate.
  - assert (c' = c) as ->.
    { rewrite Hstream, async_for_app in Hloop.
      destruct (async_for json_loads (updates_then items Exhausted) unassigned)
        as [e|l1]; [discriminate|]. cbn in Hloop.
      destruct (loop_body json_loads last l1) as [e|l2] eqn:Hb; [discriminate|].
      cbn in Hloop. injection Hloop as <-.
      pose proof (loop_body_flag _ _ _ _ Hc Hb) as Hflag. congruence. }
    rewrite Ht in Hout. rewrite Hout. split; [|split].
    + intros i a H. destruct i as [|[|[|i]]]; cbn in H; try discriminate.
      injection H as <-.
      exists 0, (mkTaskStatusUpdateEvent (tsp_id (req_params request))
                   (mkTaskStatus s (Some (mkMessage "agent" p None))) false None).
      cbn. repeat split; auto; lia.
    + intros i e0 H Hfinal. destruct i as [|[|[|i]]]; cbn in H; try discriminate.
      * injection H as <-. cbn in Hfinal. discriminate.
      * injection H as <-. cbn. split; reflexivity.
    + intros _. exists s, p. split; auto.
Qed.


(** *** Errors while streaming *)

(** C5. Whatever the upstream is: when the [try] block of the generator
    raises (the upstream raised or an update could not be read while the
    stream was consumed, or [_update_store] did not find the task), the
    generator has yielded nothing before, yields one response and ends; that
    response is the JSON-RPC response with the identifier of the request and
    an [InternalError], not an event of the task, and the task store is as it
    was.  When the block does not raise no error response is yielded. *)
Theorem stream_error_single_terminal_event request query w :
  _get_user_query (req_params request) = inr query ->
  let body := try_body json_loads agent request query w in
  let r := _stream_generator json_loads agent request w in
  let internal_error :=
    JSONRPCResponse (req_id request)
      (InternalError "An error occurred while streaming the response") in
  (forall e, returned body = inl e ->
     emitted r = [internal_error] /\ is_error internal_error = true /\
     as_status internal_error = None /\ as_artifact internal_error = None /\
     returned r = inr tt /\ tasks (after r) = tasks w) /\
  (forall e,
     async_for json_loads
       (stream agent query (tsp_sessionId (req_params request))) unassigned = inl e ->
     returned body = inl e) /\
  (tasks w !! tsp_id (req_params request) = None -> exists e, returned body = inl e) /\
  (returned body = inr tt -> forall x, x ∈ emitted r -> is_error x = false).
Proof.
  intros Hq body r internal_error.
  destruct (generator_shape request query w Hq) as [Hret Hshape].
  fold body r in Hret, Hshape.
  repeat split.
  - destruct Hshape as [(e' & _ & Hout & _)|(l & c & s & p & t & Hs)]; [exact Hout|].
    decompose [and] Hs. congruence.
  - exact Hret.
  - destruct Hshape as [(e' & _ & _ & Hst)|(l & c & s & p & t & Hs)]; [exact Hst|].
    decompose [and] Hs. congruence.
  - intros e He. subst body. rewrite try_body_run, He. reflexivity.
  - intros Hnone.
    destruct Hshape as [(e' & He' & _)|(l & c & s & p & t & Hs)]; [eauto|].
    decompose [and] Hs. congruence.
  - intros Hok x Hx.
    destruct Hshape as [(e' & He' & _)|(l & c & s & p & t & Hs)]; [congruence|].
    decompose [and] Hs. clear Hs.
    match goal with H : emitted r = _ |- _ => rewrite H in Hx end.
    destruct (truthy c); set_unfold; intuition subst; reflexivity.
Qed.

(** *** An upstream without a terminal update *)

(** C10. When the upstream hands over at least one update, every update
    signals "not complete" and the upstream then ends, the generator yields
    one response, the non-final [WORKING] status event built from the last
    update, and ends: no final event, no error response.  When the upstream
    hands over nothing, the statements after the loop read [parts], which
    was never assigned; the exception is caught and the generator yields one
    response only, the JSON-RPC response with the identifier of the request
    and an [InternalError]; the store is as it was. *)
Theorem stream_without_terminal_update request query w :
  _get_user_query (req_params request) = inr query ->
  let r := _stream_generator json_loads agent request w in
  (forall items last u t,
     stream agent query (tsp_sessionId (req_params request)) =
       updates_then (items ++ [last]) Exhausted ->
     Forall (fun item => exists u', progress_update item u') items ->
     progress_update last u ->
     tasks w !! tsp_id (req_params request) = Some t ->
     emitted r = [status_event request WORKING [TextPart u]] /\
     returned r = inr tt /\
     tasks (after r) !! tsp_id (req_params request) =
       Some (updated t
               (mkTaskStatus WORKING (Some (mkMessage "agent" [TextPart u] None)))
               None)) /\
  (stream agent query (tsp_sessionId (req_params request)) = Exhausted ->
     returned (try_body json_loads agent request query w) =
       inl (UnboundLocalError "parts") /\
     emitted r =
       [JSONRPCResponse (req_id request)
          (InternalError "An error occurred while streaming the response")] /\
     returned r = inr tt /\ tasks (after r) = tasks w).
Proof.
  intros Hq r. split.
  - intros items last u t Hstream Hitems Hlast Hlook. subst r.
    rewrite (stream_generator_run _ _ _ Hq). cbv zeta.
    rewrite try_body_run, Hstream.
    assert (updates_then (items ++ [last]) Exhausted =
            updates_then items (Yields last Exhausted)) as ->.
    { clear. induction items; cbn; congruence. }
    rewrite async_for_app.
    destruct (async_for_progress items unassigned Hitems) as [l1 ->]. cbn.
    destruct (loop_body_progress last u l1 Hlast)
      as (l2 & -> & (c & Hc & Ht) & Hs & Hp & Ha). cbn.
    rewrite (after_loop_run request l2 _ c WORKING [TextPart u] Hc Hs Hp)
      by (rewrite Ht; exact Ha).
    cbn. rewrite Hlook, Ht. cbn. repeat split. apply lookup_insert_eq.
  - intros Hstream. subst r.
    rewrite (stream_generator_run _ _ _ Hq). cbv zeta.
    rewrite try_body_run, Hstream. cbn. auto.
Qed.


(** *** The store *)

(** C4. [_update_store] on an identifier that is in the store: the task's
    status becomes the given status; the given artifacts are appended to the
    task's list, which is created when the task had none, and the list is
    left as it was when no artifacts are given; nothing else of the task and
    no other task changes; the updated task is returned.  On an identifier
    that is not in the store: the call raises the not-found [ValueError]
    and the store is as it was. *)
Theorem update_store_spec task_id status arts w :
  let r := _update_store task_id status arts w in
  (forall task, tasks w !! task_id = Some task ->
     exists task',
       returned r = inr task' /\
       tasks (after r) !! task_id = Some task' /\
       t_status task' = status /\
       t_artifacts task' =
         match arts with
         | Some new => Some (default [] (t_artifacts task) ++ new)%list
         | None => t_artifacts task
         end /\
       t_id task' = t_id task /\ t_sessionId task' = t_sessionId task /\
       t_history task' = t_history task /\ t_metadata task' = t_metadata task /\
       (forall other, other <> task_id ->
          tasks (after r) !! other = tasks w !! other) /\
       trace (after r) = trace w /\ emitted r = []) /\
  (tasks w !! task_id = None ->
     returned r = inl (ValueError_not_found task_id) /\ after r = w /\
     emitted r = []).
Proof.
  intros r. subst r. unfold _update_store. run_co. split.
  - intros task Hlook. rewrite Hlook. cbn.
    exists (updated task status arts).
    split; [reflexivity|]. split; [apply lookup_insert_eq|].
    split; [reflexivity|].
    split; [unfold updated; cbn; destruct arts, (t_artifacts task); reflexivity|].
    do 4 (split; [reflexivity|]).
    split; [|split; reflexivity].
    intros other Hne. apply lookup_insert_ne. congruence.
  - intros Hnone. rewrite Hnone. cbn. destruct w; auto.
Qed.

(** *** Validation *)

Lemma upsert_task_run params w :
  let r := upsert_task params w in
  emitted r = [] /\ trace (after r) = trace w ++ [CallUpsert (tsp_id params)] /\
  (exists t, returned r = inr t /\ tasks (after r) !! tsp_id params = Some t) /\
  (forall t, tasks w !! tsp_id params = Some t -> tasks (after r) = tasks w).
Proof.
  unfold upsert_task. run_co.
  destruct (tasks w !! tsp_id params) as [t|] eqn:Hlook; cbn.
  - repeat split; eauto.
  - repeat split; [eexists; split; [reflexivity|apply lookup_insert_eq]|discriminate].
Qed.

Lemma invoke_trace request w :
  trace (after (_invoke agent request w)) =
    trace w ++
    match _get_user_query (req_params request) with
    | inr q => [CallInvoke q (tsp_sessionId (req_params request))]
    | inl _ => []
    end.
Proof.
  unfold _invoke, _update_store. run_co.
  destruct (_get_user_query (req_params request)) as [e|q]; cbn;
    [now rewrite app_nil_r|].
  destruct (invoke agent q _) as [e|result]; cbn; [reflexivity|].
  destruct (contains "MISSING_INFO:" result) as [e|missing]; cbn; [reflexivity|].
  destruct (tasks w !! tsp_id (req_params request)); reflexivity.
Qed.

Lemma stream_generator_trace request w :
  trace (after (_stream_generator json_loads agent request w)) =
    trace w ++
    match _get_user_query (req_params request) with
    | inr q => [CallStream q (tsp_sessionId (req_params request))]
    | inl _ => []
    end.
Proof.
  destruct (_get_user_query (req_params request)) as [e|q] eqn:Hq.
  { unfold _stream_generator. rewrite Hq. run_co. now rewrite app_nil_r. }
  rewrite (stream_generator_run _ _ _ Hq). cbv zeta. rewrite try_body_run.
  destruct (async_for json_loads _ unassigned) as [e|l] eqn:Hloop; cbn; [reflexivity|].
  destruct (async_for_assigns _ _ _ Hloop) as [->|(c & s & p & Hc & Hs & Hp & Ha & _)].
  { rewrite after_loop_unassigned; reflexivity. }
  rewrite (after_loop_run _ _ _ _ _ _ Hc Hs Hp Ha); cbn.
  destruct (tasks w !! tsp_id (req_params request)); reflexivity.
Qed.

(** C9. A request whose accepted output modes are not compatible with the
    agent's content types: [on_send_task] and [on_send_task_subscribe] both
    return the incompatible-types error response, and the world (the task
    store, and the calls made) is as it was: no upsert.  A compatible
    request: the upsert is the first call made, the task is in the store
    from then on, and the agent ([invoke], or [stream] once the returned
    generator runs) is called after it, in the store that the upsert left. *)
Theorem validation_gates_upsert request w :
  let params := req_params request in
  let compatible :=
    are_modalities_compatible (tsp_acceptedOutputModes params)
      (SUPPORTED_CONTENT_TYPES agent) in
  let rejection := JSONRPCResponse (req_id request) ContentTypeNotSupportedError in
  let unary := on_send_task are_modalities_compatible agent request w in
  let subscribe :=
    on_send_task_subscribe json_loads are_modalities_compatible agent request w in
  (compatible = false ->
     unary = mkOutcome [] w (inr rejection) /\
     subscribe = mkOutcome [] w (inr (Rejected rejection))) /\
  (compatible = true ->
     let w1 := after (upsert_task params w) in
     is_Some (tasks w1 !! tsp_id params) /\
     trace w1 = trace w ++ [CallUpsert (tsp_id params)] /\
     after unary = after (_invoke agent request w1) /\
     returned unary = returned (_invoke agent request w1) /\
     trace (after unary) =
       trace w ++ CallUpsert (tsp_id params) ::
       match _get_user_query params with
       | inr q => [CallInvoke q (tsp_sessionId params)]
       | inl _ => []
       end /\
     subscribe =
       mkOutcome [] w1 (inr (Generator (_stream_generator json_loads agent request))) /\
     trace (after (_stream_generator json_loads agent request w1)) =
       trace w ++ CallUpsert (tsp_id params) ::
       match _get_user_query params with
       | inr q => [CallStream q (tsp_sessionId params)]
       | inl _ => []
       end).
Proof.
  intros params compatible rejection unary subscribe.
  subst unary subscribe.
  unfold on_send_task, on_send_task_subscribe, _validate_request,
    new_incompatible_types_error.
  fold params. fold compatible. split; intros Hc; rewrite Hc; cbn [negb].
  - split; reflexivity.
  - set (w1 := after (upsert_task params w)).
    destruct (upsert_task_run params w) as (Hout & Htr & (t & Hret & Hlook) & _).
    fold w1 in Htr, Hlook.
    assert (Hbind : forall (A : Type) (k : Co A),
               (_ <- upsert_task params ;; k) w =
               mkOutcome (emitted (k w1)) (after (k w1)) (returned (k w1))).
    { intros A k. cbn -[upsert_task]. subst w1.
      destruct (upsert_task params w) as [o w' res]; cbn in *. subst o res.
      destruct (k w'); reflexivity. }
    split; [eauto|]. split; [exact Htr|].
    split; [now rewrite Hbind|]. split; [now rewrite Hbind|].
    split; [|split].
    + rewrite Hbind; cbn. rewrite invoke_trace, Htr, <- app_assoc. reflexivity.
    + rewrite Hbind; cbn. reflexivity.
    + rewrite stream_generator_trace, Htr, <- app_assoc. reflexivity.
Qed.


(** *** The terminal-state rule *)

Lemma prefix_spec p s : String.prefix p s = true <-> exists b, s = (p ++ b)%string.
Proof.
  revert s. induction p as [|a p IH]; intros s.
  - split; [intros _; now exists s|]. intros _. destruct s; reflexivity.
  - destruct s as [|a' s]; cbn.
    + split; [discriminate|intros [b [=]]].
    + destruct (Ascii.ascii_dec a a') as [->|Hne].
      * rewrite IH. split.
        -- intros [b ->]. now exists b.
        -- intros [b Hb]. cbn in Hb. injection Hb as ->. now exists b.
      * split; [discriminate|]. intros [b [= Ha _]]. congruence.
Qed.

(** [is_substring p s] holds exactly when [s] is [a ++ p ++ b]. *)
Lemma is_substring_spec p s :
  is_substring p s = true <-> exists a b, s = (a ++ p ++ b)%string.
Proof.
  induction s as [|c s IH]; cbn [is_substring].
  - rewrite orb_false_r, prefix_spec. split.
    + intros [b ->]. now exists "", b.
    + intros (a & b & H). destruct a; [eauto|discriminate].
  - rewrite orb_true_iff, prefix_spec, IH. split.
    + intros [[b ->]|(a & b & ->)]; [now exists "", b|now exists (String c a), b].
    + intros ([|c' a] & b & H); cbn in H; [left; eauto|right].
      injection H as -> ->. eauto.
Qed.

Lemma terminal_rule_loop_body item content s part l :
  complete_update item content ->
  terminal_rule json_loads content s part ->
  exists l', loop_body json_loads item l = inr l' /\
    (exists c, is_task_complete l' = Some c /\ truthy c = true) /\
    task_state l' = Some s /\ parts l' = Some [part] /\
    artifacts l' = Some (Some [terminal_artifact [part]]).
Proof.
  intros (c & Hc & Ht & Hcontent) Hrule. unfold loop_body.
  rewrite Hc; cbn. rewrite Ht; cbn. rewrite Hcontent; cbn.
  destruct Hrule as [d rd text decoded Hr Hres Hdec|d Hr|d response Hr Hres|content Hd]; cbn.
  - rewrite Hr; cbn. rewrite Hres; cbn. rewrite Hdec; cbn.
    eexists; split; [reflexivity|]; cbn; eauto 10.
  - rewrite Hr; cbn. eexists; split; [reflexivity|]; cbn; eauto 10.
  - rewrite Hr; cbn. rewrite Hres; cbn. eexists; split; [reflexivity|]; cbn; eauto 10.
  - rewrite Hd; cbn. eexists; split; [reflexivity|]; cbn; eauto 10.
Qed.


(** A complete update for which the rule selects nothing makes the turn of
    the loop raise. *)
Lemma loop_body_no_rule item content l :
  complete_update item content ->
  (forall s part, ~ terminal_rule json_loads content s part) ->
  exists e, loop_body json_loads item l = inl e.
Proof.
  intros (c & Hc & Ht & Hcontent) Hnone. unfold loop_body.
  rewrite Hc; cbn. rewrite Ht; cbn. rewrite Hcontent; cbn.
  destruct (is_dict content) eqn:Hd;
    [|exfalso; eapply Hnone; now apply rule_text].
  destruct content as [| | | | |d]; try discriminate. cbn.
  destruct (assoc "response" d) as [response|] eqn:Hr; cbn;
    [|exfalso; eapply Hnone; now apply rule_no_response].
  destruct (contains "result" response) as [e|[]] eqn:Hres; cbn; [eauto| |].
  - destruct (getitem response "result") as [e|x] eqn:Hx; cbn; [eauto|].
    destruct (loads json_loads x) as [e|decoded] eqn:Hl; cbn; [eauto|].
    exfalso. unfold loads in Hl. destruct x as [| | |text| |]; try discriminate.
    destruct (json_loads text) as [v|] eqn:Hj; [|discriminate].
    destruct response as [| | | | |rd]; try discriminate. cbn in Hx.
    destruct (assoc "result" rd) as [y|] eqn:Hy; [|discriminate].
    injection Hx as ->. eapply Hnone. eapply rule_input_required; eassumption.
  - exfalso. eapply Hnone. eapply rule_no_result; eassumption.
Qed.

(** A last update on which the turn of the loop raises: the [except] clause
    answers and the store is as it was. *)
Lemma stream_generator_last_raises request query w items last l0 e :
  _get_user_query (req_params request) = inr query ->
  stream agent query (tsp_sessionId (req_params request)) =
    updates_then items (Yields last Exhausted) ->
  async_for json_loads (updates_then items Exhausted) unassigned = inr l0 ->
  loop_body json_loads last l0 = inl e ->
  let r := _stream_generator json_loads agent request w in
  emitted r = [streaming_error request] /\ tasks (after r) = tasks w.
Proof.
  intros Hq Hstream Hprefix He r. subst r.
  rewrite (stream_generator_run _ _ _ Hq). cbv zeta.
  rewrite try_body_run, Hstream, async_for_app, Hprefix.
  cbn [async_for]. rewrite He. cbn. auto.
Qed.

(** A "response" that cannot be searched for "result" makes the turn of the
    loop raise [TypeError]. *)
Lemma loop_body_unsearchable_response item d response l :
  complete_update item (VDict d) ->
  assoc "response" d = Some response ->
  response = VNone \/ (exists b, response = VBool b) \/ (exists n, response = VInt n) ->
  loop_body json_loads item l = inl TypeError.
Proof.
  intros (c & Hc & Ht & Hcontent) Hr Hresponse. unfold loop_body.
  rewrite Hc; cbn. rewrite Ht; cbn. rewrite Hcontent; cbn. rewrite Hr; cbn.
  destruct Hresponse as [->|[[b ->]|[n ->]]]; reflexivity.
Qed.

(** A "result" found under "response" that is not a string which
    [json.loads] decodes makes the turn of the loop raise. *)
Lemma loop_body_undecodable_result item d response l :
  complete_update item (VDict d) ->
  assoc "response" d = Some response ->
  contains "result" response = inr true ->
  (forall text, getitem response "result" = inr (VStr text) -> json_loads text = None) ->
  exists e, loop_body json_loads item l = inl e.
Proof.
  intros (c & Hc & Ht & Hcontent) Hr Hres Hbad. unfold loop_body.
  rewrite Hc; cbn. rewrite Ht; cbn. rewrite Hcontent; cbn. rewrite Hr; cbn.
  rewrite Hres; cbn.
  destruct (getitem response "result") as [e|x] eqn:Hx; cbn; [eauto|].
  unfold loads. destruct x as [| | |text| |]; cbn; eauto.
  rewrite (Hbad text eq_refl). cbn. eauto.
Qed.

(** C2 (amended). The terminal-state rule as the code applies it.
    Streaming, when the update that the generator acts on (the last one)
    signals "complete": a content that is a mapping with a "response"
    mapping whose "result" is a string that [json.loads] decodes selects
    [INPUT_REQUIRED] with the decoded value as the artifact's data; a
    mapping without "response", or whose "response" is a mapping, a list or
    a string in which no "result" is found, selects [COMPLETED] with the raw
    mapping as data; a content that is not a mapping selects [COMPLETED]
    with the raw content as text; the selected state is stored with the
    artifact and streamed.  In every remaining case the turn of the loop
    raises, the only response is the JSON-RPC response with the identifier
    of the request and an [InternalError], and the store is as it was; these
    cases are: a "response" that cannot be searched for "result" ([None], a
    boolean, a number: [TypeError]), and a "result" found under "response"
    that cannot be fetched, is not a string, or is a string that
    [json.loads] does not decode.  Unary: a textual result selects
    [INPUT_REQUIRED] when it contains "MISSING_INFO:" and [COMPLETED]
    otherwise. *)
Theorem terminal_state_selection request query w :
  _get_user_query (req_params request) = inr query ->
  let params := req_params request in
  let r := _stream_generator json_loads agent request w in
  let internal_error :=
    JSONRPCResponse (req_id request)
      (InternalError "An error occurred while streaming the response") in
  (forall items last content s part l0 t,
     stream agent query (tsp_sessionId params) =
       updates_then items (Yields last Exhausted) ->
     async_for json_loads (updates_then items Exhausted) unassigned = inr l0 ->
     complete_update last content ->
     terminal_rule json_loads content s part ->
     tasks w !! tsp_id params = Some t ->
     emitted r =
       [status_event request s [part];
        artifact_event request (terminal_artifact [part]);
        final_event request s] /\
     tasks (after r) !! tsp_id params =
       Some (updated t (mkTaskStatus s (Some (mkMessage "agent" [part] None)))
               (Some [terminal_artifact [part]]))) /\
  (forall items last content l0,
     stream agent query (tsp_sessionId params) =
       updates_then items (Yields last Exhausted) ->
     async_for json_loads (updates_then items Exhausted) unassigned = inr l0 ->
     complete_update last content ->
     (forall s part, ~ terminal_rule json_loads content s part) ->
     (exists e, loop_body json_loads last l0 = inl e) /\
     emitted r = [internal_error] /\ tasks (after r) = tasks w) /\
  (forall items last d response l0,
     stream agent query (tsp_sessionId params) =
       updates_then items (Yields last Exhausted) ->
     async_for json_loads (updates_then items Exhausted) unassigned = inr l0 ->
     complete_update last (VDict d) ->
     assoc "response" d = Some response ->
     response = VNone \/ (exists b, response = VBool b) \/
       (exists n, response = VInt n) ->
     loop_body json_loads last l0 = inl TypeError /\
     (forall s part, ~ terminal_rule json_loads (VDict d) s part) /\
     emitted r = [internal_error] /\ tasks (after r) = tasks w) /\
  (forall items last d response l0,
     stream agent query (tsp_sessionId params) =
       updates_then items (Yields last Exhausted) ->
     async_for json_loads (updates_then items Exhausted) unassigned = inr l0 ->
     complete_update last (VDict d) ->
     assoc "response" d = Some response ->
     contains "result" response = inr true ->
     (forall text, getitem response "result" = inr (VStr text) ->
        json_loads text = None) ->
     (exists e, loop_body json_loads last l0 = inl e) /\
     (forall s part, ~ terminal_rule json_loads (VDict d) s part) /\
     emitted r = [internal_error] /\ tasks (after r) = tasks w) /\
  (forall text t,
     invoke agent query (tsp_sessionId params) = inr (VStr text) ->
     tasks w !! tsp_id params = Some t ->
     let s := if is_substring "MISSING_INFO:" text then INPUT_REQUIRED else COMPLETED in
     let t' :=
       updated t (mkTaskStatus s (Some (mkMessage "agent" [TextPart (VStr text)] None)))
         (Some [mkArtifact [TextPart (VStr text)] None None]) in
     returned (_invoke agent request w) = inr (SendTaskResponse (req_id request) t') /\
     tasks (after (_invoke agent request w)) !! tsp_id params = Some t' /\
     (s = INPUT_REQUIRED <->
      exists a b, text = (a ++ "MISSING_INFO:" ++ b)%string)).
Proof.
  intros Hq params r internal_error.
  assert (Hraises : forall last content l e,
            complete_update last content ->
            loop_body json_loads last l = inl e ->
            forall s part, ~ terminal_rule json_loads content s part).
  { intros last content l e Hlast He s part Hrule.
    destruct (terminal_rule_loop_body last content s part l Hlast Hrule)
      as (l' & Hl' & _). congruence. }
  split; [|split; [|split; [|split]]].
  - intros items last content s part l0 t Hstream Hprefix Hlast Hrule Hlook.
    subst r. rewrite (stream_generator_run _ _ _ Hq). cbv zeta.
    rewrite try_body_run. fold params. rewrite Hstream, async_for_app, Hprefix.
    cbn [async_for].
    destruct (terminal_rule_loop_body last content s part l0 Hlast Hrule)
      as (l' & -> & (c & Hc & Ht) & Hs & Hp & Ha). cbn.
    rewrite (after_loop_run request l' _ c s [part] Hc Hs Hp)
      by (rewrite Ht; exact Ha).
    cbn. fold params. rewrite Hlook, Ht. cbn. split; [reflexivity|].
    apply lookup_insert_eq.
  - intros items last content l0 Hstream Hprefix Hlast Hnone.
    destruct (loop_body_no_rule last content l0 Hlast Hnone) as [e He].
    split; [eauto|].
    exact (stream_generator_last_raises request query w items last l0 e
             Hq Hstream Hprefix He).
  - intros items last d response l0 Hstream Hprefix Hlast Hr Hresponse.
    pose proof (loop_body_unsearchable_response last d response l0
                  Hlast Hr Hresponse) as He.
    split; [exact He|]. split; [exact (Hraises _ _ _ _ Hlast He)|].
    exact (stream_generator_last_raises request query w items last l0 TypeError
             Hq Hstream Hprefix He).
  - intros items last d response l0 Hstream Hprefix Hlast Hr Hres Hbad.
    destruct (loop_body_undecodable_result last d response l0
                Hlast Hr Hres Hbad) as [e He].
    split; [eauto|]. split; [exact (Hraises _ _ _ _ Hlast He)|].
    exact (stream_generator_last_raises request query w items last l0 e
             Hq Hstream Hprefix He).
  - intros text t Hinvoke Hlook s t'. subst s t' params.
    unfold _invoke, _update_store, log. cbv zeta. rewrite Hq. cbn.
    rewrite Hinvoke. cbn. rewrite Hlook. cbn.
    split; [reflexivity|]. split; [apply lookup_insert_eq|].
    rewrite <- is_substring_spec.
    destruct (is_substring "MISSING_INFO:" text); split; congruence.
Qed.

(** *** How many status events a stream of updates gets *)

(** Whatever the upstream hands over, the generator yields at most one
    [WORKING] status event. *)
Lemma working_events_at_most_one request query w :
  _get_user_query (req_params request) = inr query ->
  length (List.filter is_working_event
            (emitted (_stream_generator json_loads agent request w))) <= 1.
Proof.
  intros Hq.
  destruct (generator_shape request query w Hq) as [_ Hshape].
  destruct Hshape as [(e & _ & -> & _)|(l & c & s & p & t & Hs)].
  - cbn. lia.
  - decompose [and] Hs. clear Hs.
    match goal with H : emitted _ = _ |- _ => rewrite H end.
    destruct (truthy c); cbn; destruct (bool_decide (s = WORKING)); cbn; lia.
Qed.

End TaskManagerProperties.

(** *** The sample runs *)

Section TaskManagerSamples.
Import TaskManager Samples.
Local Open Scope list_scope.

(** C1. The generator does not yield one [WORKING] status event per update
    that signals "not complete": whatever the upstream hands over, it yields
    at most one; and for two such updates followed by a terminal update it
    yields none, its responses are the three of the terminal update.  The
    statements that build, store and yield the status stand after the loop,
    not in it. *)
Theorem working_events_of_three_updates :
  (forall json_loads agent request query w,
     _get_user_query (req_params request) = inr query ->
     length (List.filter is_working_event
               (emitted (_stream_generator json_loads agent request w))) <= 1) /\
  let out :=
    emitted (_stream_generator sample_loads (sample_agent (inr VNone) three_updates)
               sample_request sample_world) in
  length (List.filter signals_not_complete (items_of three_updates)) = 2 /\
  length (List.filter is_working_event out) = 0 /\
  out = [status_event sample_request COMPLETED [TextPart (VStr "done")];
         artifact_event sample_request (terminal_artifact [TextPart (VStr "done")]);
         final_event sample_request COMPLETED].
Proof.
  split.
  - intros json_loads agent request query w Hq.
    now apply (working_events_at_most_one json_loads agent request query w).
  - vm_compute. repeat split.
Qed.

(** C2, as stated, fails: a terminal update whose content is a mapping with
    a "response" whose "result" is itself a mapping holds no JSON-encoded
    string, so it is one of "the other complete cases"; yet the turn of the
    loop raises, no state is selected, the task keeps its status and the
    only response is the internal error. *)
Lemma terminal_state_selection_counterexample :
  let item := terminal structured_result in
  let r :=
    _stream_generator sample_loads
      (sample_agent (inr VNone) (Yields item Exhausted)) sample_request sample_world in
  complete_update item structured_result /\
  (forall text,
     getitem structured_result "response" ≫= (fun response => getitem response "result")
       <> inr (VStr text)) /\
  ~ (exists l', loop_body sample_loads item unassigned = inr l' /\
                task_state l' = Some COMPLETED) /\
  emitted r =
    [JSONRPCResponse (VInt 7)
       (InternalError "An error occurred while streaming the response")] /\
  tasks (after r) !! "task-1" = Some sample_task.
Proof.
  cbv zeta. split; [|split; [|split; [|split]]].
  - exists (VBool true). repeat split.
  - intros text. vm_compute. discriminate.
  - intros (l' & H & _). vm_compute in H. discriminate.
  - vm_compute. reflexivity.
  - vm_compute. reflexivity.
Qed.

Lemma streaming_event_order_witness :
  let out :=
    emitted (_stream_generator sample_loads (sample_agent (inr VNone) three_updates)
               sample_request sample_world) in
  exists s p,
    (s = COMPLETED \/ s = INPUT_REQUIRED) /\
    out = [status_event sample_request s p;
           artifact_event sample_request (terminal_artifact p);
           final_event sample_request s].
Proof.
  refine (proj2 (proj2 (streaming_event_order sample_loads
            (sample_agent (inr VNone) three_updates) sample_request
            (VStr "draft a post") sample_world
            [progress "thinking"; progress "writing"] (terminal (VStr "done"))
            eq_refl eq_refl eq_refl)) eq_refl).
Defined.

Lemma stream_error_single_terminal_event_witness :
  let r :=
    _stream_generator sample_loads
      (sample_agent (inr VNone) (Yields (progress "thinking") (Fails (Raised "timeout"))))
      sample_request sample_world in
  emitted r =
    [JSONRPCResponse (VInt 7)
       (InternalError "An error occurred while streaming the response")] /\
  returned r = inr tt /\ tasks (after r) = tasks sample_world.
Proof.
  destruct (proj1 (stream_error_single_terminal_event sample_loads
              (sample_agent (inr VNone)
                 (Yields (progress "thinking") (Fails (Raised "timeout"))))
              sample_request (VStr "draft a post") sample_world eq_refl)
              (Raised "timeout") eq_refl)
    as (Hout & _ & _ & _ & Hret & Hstore).
  split; [exact Hout|]. split; [exact Hret|exact Hstore].
Defined.

Lemma stream_without_terminal_update_witness :
  let r :=
    _stream_generator sample_loads
      (sample_agent (inr VNone)
         (Yields (progress "thinking") (Yields (progress "writing") Exhausted)))
      sample_request sample_world in
  let r0 :=
    _stream_generator sample_loads (sample_agent (inr VNone) Exhausted)
      sample_request sample_world in
  (emitted r = [status_event sample_request WORKING [TextPart (VStr "writing")]] /\
   returned r = inr tt /\
   tasks (after r) !! "task-1" =
     Some (updated sample_task
             (mkTaskStatus WORKING
                (Some (mkMessage "agent" [TextPart (VStr "writing")] None)))
             None)) /\
  (emitted r0 =
     [JSONRPCResponse (VInt 7)
        (InternalError "An error occurred while streaming the response")] /\
   returned r0 = inr tt /\ tasks (after r0) = tasks sample_world).
Proof.
  split.
  - refine (proj1 (stream_without_terminal_update sample_loads
              (sample_agent (inr VNone)
                 (Yields (progress "thinking") (Yields (progress "writing") Exhausted)))
              sample_request (VStr "draft a post") sample_world eq_refl)
              [progress "thinking"] (progress "writing") (VStr "writing") sample_task
              eq_refl _ _ eq_refl).
    + constructor; [|constructor].
      exists (VStr "thinking"), (VBool false). repeat split.
    + exists (VBool false). repeat split.
  - exact (proj2 (proj2 (stream_without_terminal_update sample_loads
                           (sample_agent (inr VNone) Exhausted)
                           sample_request (VStr "draft a post") sample_world eq_refl)
                    eq_refl)).
Defined.

Lemma update_store_spec_witness :
  let r :=
    _update_store "task-1" (mkTaskStatus WORKING None)
      (Some [terminal_artifact [TextPart (VStr "done")]]) sample_world in
  (exists task',
     returned r = inr task' /\
     t_status task' = mkTaskStatus WORKING None /\
     t_artifacts task' = Some [terminal_artifact [TextPart (VStr "done")]]) /\
  returned (_update_store "task-2" (mkTaskStatus WORKING None) None sample_world) =
    inl (ValueError_not_found "task-2").
Proof.
  cbv zeta. split.
  - destruct (proj1 (update_store_spec "task-1" (mkTaskStatus WORKING None)
                       (Some [terminal_artifact [TextPart (VStr "done")]]) sample_world)
                sample_task eq_refl)
      as (task' & Hret & _ & Hstatus & Harts & _).
    exists task'. repeat split; assumption.
  - exact (proj1 (proj2 (update_store_spec "task-2" (mkTaskStatus WORKING None) None
                           sample_world) eq_refl)).
Defined.

Lemma validation_gates_upsert_witness :
  on_send_task sample_compatible (sample_agent (inr (VStr "done")) Exhausted)
    image_request empty_world =
    mkOutcome [] empty_world
      (inr (JSONRPCResponse (VInt 8) ContentTypeNotSupportedError)) /\
  trace (after (on_send_task sample_compatible
                  (sample_agent (inr (VStr "done")) Exhausted)
                  sample_request empty_world)) =
    [CallUpsert "task-1"; CallInvoke (VStr "draft a post") "session-1"].
Proof.
  split.
  - exact (proj1 (proj1 (validation_gates_upsert sample_loads sample_compatible
                           (sample_agent (inr (VStr "done")) Exhausted)
                           image_request empty_world) eq_refl)).
  - pose proof (proj2 (validation_gates_upsert sample_loads sample_compatible
                         (sample_agent (inr (VStr "done")) Exhausted)
                         sample_request empty_world) eq_refl) as H.
    cbv zeta in H. exact (proj1 (proj2 (proj2 (proj2 (proj2 H))))).
Defined.

Lemma terminal_state_selection_witness :
  let r :=
    _stream_generator sample_loads
      (sample_agent (inr VNone) (Yields (terminal encoded_result) Exhausted))
      sample_request sample_world in
  emitted r =
    [status_event sample_request INPUT_REQUIRED [DataPart (VDict [("x", VInt 1)])];
     artifact_event sample_request
       (terminal_artifact [DataPart (VDict [("x", VInt 1)])]);
     final_event sample_request INPUT_REQUIRED] /\
  tasks (after r) !! "task-1" =
    Some (updated sample_task
            (mkTaskStatus INPUT_REQUIRED
               (Some (mkMessage "agent" [DataPart (VDict [("x", VInt 1)])] None)))
            (Some [terminal_artifact [DataPart (VDict [("x", VInt 1)])]])).
Proof.
  refine (proj1 (terminal_state_selection sample_loads
            (sample_agent (inr VNone) (Yields (terminal encoded_result) Exhausted))
            sample_request (VStr "draft a post") sample_world eq_refl)
            [] (terminal encoded_result) encoded_result INPUT_REQUIRED
            (DataPart (VDict [("x", VInt 1)])) unassigned sample_task
            eq_refl eq_refl _ _ eq_refl).
  - exists (VBool true). repeat split.
  - eapply rule_input_required; reflexivity.
Defined.

End TaskManagerSamples.

(** * Properties of the remote agent connection *)

Section MetadataProperties.
Import RemoteAgent.
Local Open Scope list_scope.

Context {T U : Type} {HT : HasMetadata T} {HU : HasMetadata U}.

Lemma truthy_metadata_spec (h : heap) (m : option loc) :
  truthy_metadata h m = true <-> exists l, m = Some l /\ deref h l <> ∅.
Proof.
  unfold truthy_metadata. destruct m as [l|].
  - rewrite negb_true_iff, bool_decide_eq_false. split; [eauto|].
    intros (l' & [= <-] & Hne). exact Hne.
  - split; [discriminate|]. intros (l & [=] & _).
Qed.

Lemma truthy_metadata_empty (h : heap) (l : loc) :
  deref h l = ∅ -> truthy_metadata h (Some l) = false.
Proof. intros He. unfold truthy_metadata. rewrite He. reflexivity. Qed.

Lemma truthy_metadata_nonempty (h : heap) (l : loc) :
  deref h l <> ∅ -> truthy_metadata h (Some l) = true.
Proof. intros Hne. apply truthy_metadata_spec. eauto. Qed.

Lemma deref_nonempty_allocated (h : heap) (l : loc) :
  deref h l <> ∅ -> l ∈ dom h.
Proof.
  unfold deref. intros Hne. apply elem_of_dom.
  destruct (h !! l); [eauto|]. now contradiction Hne.
Qed.

Lemma deref_insert_eq (h : heap) (l : loc) (d : dict) : deref (<[l := d]> h) l = d.
Proof. unfold deref. now rewrite lookup_insert_eq. Qed.

Lemma deref_insert_ne (h : heap) (l l' : loc) (d : dict) :
  l <> l' -> deref (<[l := d]> h) l' = deref h l'.
Proof. intros Hne. unfold deref. now rewrite lookup_insert_ne. Qed.

(** Nothing happens when the source's metadata is [None] or empty. *)
Lemma merge_metadata_falsy_source (target : T) (source : U) (h : heap) sm :
  metadata_of source = Attr sm -> truthy_metadata h sm = false ->
  merge_metadata target source h = (h, target).
Proof.
  intros Hs Hf. unfold merge_metadata. rewrite Hs.
  destruct (metadata_of target) as [|tm]; [reflexivity|].
  rewrite Hf, andb_false_r. reflexivity.
Qed.

Lemma merge_metadata_no_mapping (target : T) (source : U) (h : heap) :
  mapping_of h source = None \/ mapping_of h source = Some ∅ ->
  merge_metadata target source h = (h, target).
Proof.
  unfold mapping_of. intros Hs.
  destruct (metadata_of source) as [|[ls|]] eqn:Hms.
  - unfold merge_metadata. rewrite Hms. destruct (metadata_of target); reflexivity.
  - destruct Hs as [[=]|[= He]]. apply (merge_metadata_falsy_source _ _ _ _ Hms).
    now apply truthy_metadata_empty.
  - apply (merge_metadata_falsy_source _ _ _ _ Hms). reflexivity.
Qed.

(** The target's mapping after the call, whatever it held before: the
    source's entries on top of its own. *)
Lemma merge_metadata_mapping (target : T) (source : U) (h : heap) tm ds :
  metadata_of target = Attr tm -> mapping_of h source = Some ds ->
  (tm = None -> ds <> ∅) ->
  mapping_of (fst (merge_metadata target source h))
             (snd (merge_metadata target source h)) =
    Some (ds ∪ match tm with Some lt => deref h lt | None => ∅ end).
Proof.
  unfold mapping_of. intros Hmt Hs Hnone.
  destruct (metadata_of source) as [|[ls|]] eqn:Hms; try discriminate.
  injection Hs as Hs. unfold merge_metadata. rewrite Hmt, Hms.
  destruct (decide (ds = ∅)) as [->|Hds].
  { rewrite (truthy_metadata_empty h ls Hs), andb_false_r. cbn. rewrite Hmt.
    destruct tm as [lt|]; [|now contradiction Hnone].
    f_equal. now rewrite (left_id_L ∅ (∪)). }
  rewrite (truthy_metadata_nonempty h ls) by congruence.
  destruct (truthy_metadata h tm) eqn:Htm; cbn.
  - apply truthy_metadata_spec in Htm as (lt & -> & _). cbn.
    rewrite Hmt, deref_insert_eq, Hs. reflexivity.
  - rewrite (metadata_assigned _ _ _ Hmt), deref_insert_eq, Hs. f_equal.
    destruct tm as [lt|]; [|now rewrite (right_id_L ∅ (∪))].
    unfold truthy_metadata in Htm.
    apply negb_false_iff, bool_decide_eq_true in Htm. rewrite Htm.
    now rewrite (right_id_L ∅ (∪)).
Qed.

(** A dict that is not the target's is as it was after the call. *)
Lemma merge_metadata_frame (target : T) (source : U) (h : heap) l :
  l ∈ dom h -> metadata_of target <> Attr (Some l) ->
  deref (fst (merge_metadata target source h)) l = deref h l.
Proof.
  intros Hin Hne. unfold merge_metadata.
  destruct (metadata_of target) as [|tm]; [reflexivity|].
  destruct (metadata_of source) as [|sm]; [reflexivity|].
  destruct (truthy_metadata h tm) eqn:Htm; cbn.
  - apply truthy_metadata_spec in Htm as (lt & -> & _).
    destruct (truthy_metadata h sm) eqn:Hsm; cbn; [|reflexivity].
    apply truthy_metadata_spec in Hsm as (ls & -> & _). cbn.
    apply deref_insert_ne. congruence.
  - destruct (truthy_metadata h sm) eqn:Hsm; cbn; [|reflexivity].
    apply truthy_metadata_spec in Hsm as (ls & -> & _). cbn.
    apply deref_insert_ne. intros Heq. rewrite <- Heq in Hin.
    now apply is_fresh in Hin.
Qed.

(** The source's mapping is as it was after the call. *)
Lemma merge_metadata_source_kept (target : T) (source : U) (h : heap) ds :
  mapping_of h source = Some ds ->
  mapping_of (fst (merge_metadata target source h)) source = Some ds.
Proof.
  unfold mapping_of. intros Hs.
  destruct (metadata_of source) as [|[ls|]] eqn:Hms; try discriminate.
  injection Hs as Hs. f_equal.
  destruct (decide (ds = ∅)) as [->|Hds].
  { rewrite (merge_metadata_falsy_source target source h _ Hms); [exact Hs|].
    now apply truthy_metadata_empty. }
  assert (ls ∈ dom h) as Hin by (apply deref_nonempty_allocated; congruence).
  destruct (metadata_of target) as [|[lt|]] eqn:Hmt;
    [|destruct (decide (lt = ls)) as [->|Hne]|];
    try (rewrite merge_metadata_frame;
         [exact Hs|assumption|rewrite Hmt; congruence]).
  unfold merge_metadata. rewrite Hmt, Hms.
  rewrite (truthy_metadata_nonempty h ls) by congruence. cbn.
  rewrite deref_insert_eq, Hs. apply (idemp_L (∪)).
Qed.

(** C6 (amended). [merge_metadata(target, source)]:
    when the target or the source has no [metadata] attribute, and when the
    source's metadata is [None] or an empty mapping, nothing changes (so a
    second call changes nothing either);
    when both hold mappings, the target's mapping afterwards has, for every
    key, the source's entry if the source has one and the target's own entry
    otherwise, and the source's mapping is as it was;
    when the target's metadata is [None] and the source holds a non-empty
    mapping, the target's metadata becomes a new dict, distinct from every
    dict there was, with the entries of the source's. *)
Theorem merge_metadata_spec (target : T) (source : U) (h : heap) :
  let h' := fst (merge_metadata target source h) in
  let target' := snd (merge_metadata target source h) in
  (metadata_of target = NoAttr \/ metadata_of source = NoAttr ->
     h' = h /\ target' = target) /\
  (mapping_of h source = None \/ mapping_of h source = Some ∅ ->
     h' = h /\ target' = target /\ merge_metadata target' source h' = (h', target')) /\
  (forall dt ds,
     mapping_of h target = Some dt -> mapping_of h source = Some ds ->
     mapping_of h' target' = Some (ds ∪ dt) /\
     mapping_of h' source = Some ds /\
     forall k, (ds ∪ dt) !! k =
               match ds !! k with Some v => Some v | None => dt !! k end) /\
  (forall ds,
     metadata_of target = Attr None -> mapping_of h source = Some ds -> ds <> ∅ ->
     exists l,
       (l ∉ dom h) /\ metadata_of target' = Attr (Some l) /\ h' = <[l := ds]> h /\
       mapping_of h' target' = Some ds /\ mapping_of h' source = Some ds).
Proof.
  intros h' target'. subst h' target'.
  split; [|split; [|split]].
  - intros [Ht|Hs]; unfold merge_metadata.
    + rewrite Ht. auto.
    + rewrite Hs. destruct (metadata_of target); auto.
  - intros Hs. rewrite (merge_metadata_no_mapping _ _ _ Hs). cbn.
    rewrite (merge_metadata_no_mapping _ _ _ Hs). auto.
  - intros dt ds Ht Hs. split; [|split].
    + unfold mapping_of in Ht.
      destruct (metadata_of target) as [|[lt|]] eqn:Hmt; try discriminate.
      injection Ht as <-.
      apply (merge_metadata_mapping _ _ _ _ _ Hmt Hs). discriminate.
    + now apply merge_metadata_source_kept.
    + intros k. rewrite lookup_union.
      destruct (ds !! k), (dt !! k); reflexivity.
  - intros ds Hmt Hs Hne.
    pose proof (merge_metadata_source_kept target source h ds Hs) as Hkept.
    unfold mapping_of in Hs, Hkept |- *.
    destruct (metadata_of source) as [|[ls|]] eqn:Hms; try discriminate.
    injection Hs as Hs.
    revert Hkept. unfold merge_metadata. rewrite Hmt, Hms.
    rewrite (truthy_metadata_nonempty h ls) by congruence. cbn. intros Hkept.
    exists (fresh (dom h)).
    split; [apply is_fresh|]. rewrite (metadata_assigned _ _ _ Hmt), Hs.
    split; [reflexivity|]. split; [reflexivity|].
    rewrite deref_insert_eq. split; [reflexivity|]. rewrite Hs in Hkept. exact Hkept.
Qed.

End MetadataProperties.

Section DispatcherProperties.
Import RemoteAgent.
Local Open Scope list_scope.

Context {CB : Type}.
Variable uuid4 : nat -> string.
Variable agent_client : A2AClient.
Variable card : AgentCard.

Lemma chain_message_id_run (m : Message) (w : world CB) :
  exists l,
    chain_message_id CB uuid4 m w =
      mkOutcome []
        (mkWorld (<[l := chained (entries (dicts w) m) (uuid4 (drawn w))]>
                    (if truthy_metadata (dicts w) (msg_metadata m)
                     then dicts w else <[l := ∅]> (dicts w)))
           (S (drawn w)) (callback_state w))
        (inr (mkMessage (msg_role m) (msg_parts m) (Some l))) /\
    (truthy_metadata (dicts w) (msg_metadata m) = true -> msg_metadata m = Some l) /\
    (truthy_metadata (dicts w) (msg_metadata m) = false -> l ∉ dom (dicts w)).
Proof.
  unfold chain_message_id, chained, entries.
  destruct (msg_metadata m) as [l0|] eqn:Hm.
  - destruct (truthy_metadata (dicts w) (Some l0)) eqn:Ht.
    + exists l0. cbn. repeat split; auto. discriminate.
    + exists (fresh (dom (dicts w))). cbn. rewrite deref_insert_eq.
      unfold truthy_metadata in Ht.
      apply negb_false_iff, bool_decide_eq_true in Ht. rewrite Ht.
      repeat split; [discriminate|]. intros _. apply is_fresh.
  - exists (fresh (dom (dicts w))). cbn. rewrite deref_insert_eq.
    repeat split; [discriminate|]. intros _. apply is_fresh.
Qed.

(** The dict of the chained message holds [chained] of its old entries. *)
Lemma chain_message_id_entries (m : Message) (w : world CB) :
  let r := chain_message_id CB uuid4 m w in
  exists m',
    returned r = inr m' /\ emitted r = [] /\
    msg_role m' = msg_role m /\ msg_parts m' = msg_parts m /\
    is_Some (msg_metadata m') /\
    entries (dicts (after r)) m' = chained (entries (dicts w) m) (uuid4 (drawn w)) /\
    drawn (after r) = S (drawn w) /\ callback_state (after r) = callback_state w.
Proof.
  intros r. subst r. destruct (chain_message_id_run m w) as (l & -> & _). cbn.
  eexists. split; [reflexivity|]. cbn. unfold entries at 1. cbn.
  rewrite deref_insert_eq. repeat split; eauto.
Qed.

Lemma chained_message_id old id : chained old id !! "message_id" = Some (VStr id).
Proof. unfold chained. apply lookup_insert_eq. Qed.

Lemma chained_last_message_id old id previous :
  old !! "message_id" = Some previous ->
  chained old id !! "last_message_id" = Some previous.
Proof.
  intros Hold. unfold chained. rewrite Hold.
  rewrite lookup_insert_ne by discriminate. apply lookup_insert_eq.
Qed.

Lemma chained_first old id :
  old !! "message_id" = None ->
  chained old id !! "last_message_id" = old !! "last_message_id".
Proof.
  intros Hold. unfold chained. rewrite Hold.
  now rewrite lookup_insert_ne by discriminate.
Qed.

Lemma chained_other old id k :
  k <> "message_id" -> k <> "last_message_id" -> chained old id !! k = old !! k.
Proof.
  intros H1 H2. unfold chained. rewrite lookup_insert_ne by congruence.
  destruct (old !! "message_id"); [|reflexivity].
  now rewrite lookup_insert_ne by congruence.
Qed.

(** [merge_metadata] leaves the status, the message and the final flag of a
    payload alone. *)
Lemma merge_metadata_payload (result : payload) (U : Type) `{HasMetadata U}
    (source : U) (h : heap) :
  let result' := snd (merge_metadata result source h) in
  message_of result' = message_of result /\ is_final result' = is_final result.
Proof.
  unfold merge_metadata.
  destruct (metadata_of result) as [|tm]; [auto|].
  destruct (metadata_of source) as [|sm]; [auto|].
  destruct (truthy_metadata h tm && truthy_metadata h sm).
  - destruct tm, sm; auto.
  - destruct (truthy_metadata h sm); [|auto].
    destruct sm; [|auto]. destruct result; auto.
Qed.

Lemma with_message_payload (m : Message) (result : payload) :
  is_Some (message_of result) ->
  message_of (with_message m result) = Some m /\
  is_final (with_message m result) = is_final result.
Proof. destruct result; cbn; intros [x [=]]; auto. Qed.

(** [reconcile] step by step. *)
Lemma reconcile_run (request : TaskSendParams) (result : payload) (w : world CB) :
  let hr := merge_metadata result request (dicts w) in
  reconcile CB uuid4 request result w =
    match message_of (snd hr) with
    | Some m =>
        let hm := merge_metadata m (tsp_message request) (fst hr) in
        match chain_message_id CB uuid4 (snd hm)
                (mkWorld (fst hm) (drawn w) (callback_state w)) with
        | mkOutcome out w' (inr m') => mkOutcome out w' (inr (with_message m' (snd hr)))
        | mkOutcome out w' (inl e) => mkOutcome out w' (inl e)
        end
    | None => mkOutcome [] (mkWorld (fst hr) (drawn w) (callback_state w)) (inr (snd hr))
    end.
Proof.
  intros hr. subst hr. unfold reconcile, merge, message_of.
  cbn -[chain_message_id merge_metadata].
  destruct (merge_metadata result request (dicts w)) as [h1 r1].
  cbn -[chain_message_id merge_metadata].
  destruct (status_of r1) as [|status]; [reflexivity|].
  destruct (st_message status) as [m|]; [|reflexivity].
  cbn -[chain_message_id merge_metadata].
  destruct (merge_metadata m (tsp_message request) h1) as [h2 m2].
  cbn -[chain_message_id merge_metadata].
  destruct (chain_message_id_run m2 (mkWorld h2 (drawn w) (callback_state w)))
    as (l & -> & _).
  reflexivity.
Qed.

(** [reconcile] always returns; it calls nothing, keeps the final flag, and
    when the payload has a status message the message's dict afterwards
    holds [chained] of the entries that the two merges left. *)
Lemma reconcile_returns (request : TaskSendParams) (result : payload) (w : world CB) :
  let r := reconcile CB uuid4 request result w in
  exists result',
    returned r = inr result' /\ emitted r = [] /\
    is_final result' = is_final result /\
    callback_state (after r) = callback_state w /\
    (forall m, message_of result = Some m ->
       let hr := merge_metadata result request (dicts w) in
       let hm := merge_metadata m (tsp_message request) (fst hr) in
       exists m',
         message_of result' = Some m' /\ is_Some (msg_metadata m') /\
         entries (dicts (after r)) m' =
           chained (entries (fst hm) (snd hm)) (uuid4 (drawn w)) /\
         drawn (after r) = S (drawn w)).
Proof.
  intros r. subst r. rewrite reconcile_run. cbv zeta.
  destruct (merge_metadata_payload result _ request (dicts w)) as [Hm Hf].
  rewrite Hm.
  destruct (message_of result) as [m|] eqn:Hmsg.
  - pose proof (chain_message_id_entries
                  (snd (merge_metadata m (tsp_message request)
                          (fst (merge_metadata result request (dicts w)))))
                  (mkWorld (fst (merge_metadata m (tsp_message request)
                                   (fst (merge_metadata result request (dicts w)))))
                     (drawn w) (callback_state w))) as Hchain.
    cbv zeta in Hchain.
    destruct (chain_message_id CB uuid4 _ _) as [out w' [e|m']];
      destruct Hchain as (m'' & Hret & Hout & _ & _ & Hsome & Hentries & Hdrawn & Hcb);
      cbn in *; [discriminate|].
    injection Hret as <-. subst out.
    destruct (with_message_payload m'
                (snd (merge_metadata result request (dicts w))))
      as [Hmsg' Hfinal']; [rewrite Hm; eauto|].
    eexists. split; [reflexivity|]. split; [reflexivity|].
    split; [congruence|]. split; [exact Hcb|].
    intros m0 [= <-]. exists m'. auto.
  - eexists. split; [reflexivity|]. split; [reflexivity|].
    split; [exact Hf|]. split; [reflexivity|]. discriminate.
Qed.


Lemma mapping_of_message (h : heap) (m : Message) :
  mapping_of h m =
    match msg_metadata m with Some l => Some (deref h l) | None => None end.
Proof. reflexivity. Qed.

(** After the merge of the request's message into a status message, the
    message has the entries of the request's message on top of its own. *)
Lemma merged_message_entries (m source : Message) (h : heap) ls k v :
  msg_metadata source = Some ls -> deref h ls !! k = Some v ->
  entries (fst (merge_metadata m source h)) (snd (merge_metadata m source h)) !! k
    = Some v.
Proof.
  intros Hls Hk.
  assert (deref h ls <> ∅) as Hne.
  { intros He. rewrite He, lookup_empty in Hk. discriminate. }
  pose proof (merge_metadata_mapping m source h (msg_metadata m) (deref h ls)) as Hmap.
  rewrite !mapping_of_message, Hls in Hmap.
  specialize (Hmap eq_refl eq_refl (fun _ => Hne)).
  unfold entries.
  destruct (msg_metadata (snd (merge_metadata m source h))) as [l|]; [|discriminate].
  injection Hmap as ->. now apply lookup_union_Some_l.
Qed.

(** C7. Message-id chaining.  (i) The step that every status message goes
    through: an entry 'message_id' that the message's metadata holds goes to
    'last_message_id', 'message_id' becomes the identifier just drawn from
    the generator, and no other entry changes.  (ii) [reconcile] applies the
    step to the status message of every payload that has one.  (iii) Two
    chainings in a row of one message: the second leaves in
    'last_message_id' the identifier that the first assigned to
    'message_id', and assigns the next identifier, which is another one when
    the generator never repeats itself.  (iv) Linked through the request:
    when the message of the request carries a 'message_id' (the one a
    previous exchange was given), the status message of the response has it
    as 'last_message_id' after [reconcile]. *)
Theorem message_id_chaining :
  (forall (m : Message) (w : world CB),
     let r := chain_message_id CB uuid4 m w in
     exists m',
       returned r = inr m' /\
       let old := entries (dicts w) m in
       let new := entries (dicts (after r)) m' in
       new !! "message_id" = Some (VStr (uuid4 (drawn w))) /\
       (forall previous, old !! "message_id" = Some previous ->
          new !! "last_message_id" = Some previous) /\
       (old !! "message_id" = None ->
          new !! "last_message_id" = old !! "last_message_id") /\
       (forall k, k <> "message_id" -> k <> "last_message_id" ->
          new !! k = old !! k) /\
       drawn (after r) = S (drawn w)) /\
  (forall request result (w : world CB) m,
     message_of result = Some m ->
     let r := reconcile CB uuid4 request result w in
     exists result' m',
       returned r = inr result' /\ message_of result' = Some m' /\
       entries (dicts (after r)) m' !! "message_id" =
         Some (VStr (uuid4 (drawn w))) /\
       drawn (after r) = S (drawn w)) /\
  (forall (m : Message) (w : world CB),
     let r1 := chain_message_id CB uuid4 m w in
     exists m1,
       returned r1 = inr m1 /\
       let r2 := chain_message_id CB uuid4 m1 (after r1) in
       exists m2,
         returned r2 = inr m2 /\
         entries (dicts (after r1)) m1 !! "message_id" =
           Some (VStr (uuid4 (drawn w))) /\
         entries (dicts (after r2)) m2 !! "last_message_id" =
           Some (VStr (uuid4 (drawn w))) /\
         entries (dicts (after r2)) m2 !! "message_id" =
           Some (VStr (uuid4 (S (drawn w)))) /\
         ((forall i j, uuid4 i = uuid4 j -> i = j) ->
          uuid4 (S (drawn w)) <> uuid4 (drawn w))) /\
  (forall request result (w : world CB) m ls previous,
     message_of result = Some m ->
     msg_metadata (tsp_message request) = Some ls ->
     deref (dicts w) ls !! "message_id" = Some previous ->
     metadata_of result <> Attr (Some ls) ->
     let r := reconcile CB uuid4 request result w in
     exists result' m',
       returned r = inr result' /\ message_of result' = Some m' /\
       entries (dicts (after r)) m' !! "last_message_id" = Some previous /\
       entries (dicts (after r)) m' !! "message_id" =
         Some (VStr (uuid4 (drawn w)))).
Proof.
  split; [|split; [|split]].
  - intros m w r.
    destruct (chain_message_id_entries m w)
      as (m' & Hret & _ & _ & _ & _ & Hentries & Hdrawn & _).
    fold r in Hret, Hentries, Hdrawn.
    exists m'. split; [exact Hret|]. cbv zeta. rewrite Hentries.
    split; [apply chained_message_id|].
    split; [intros previous; apply chained_last_message_id|].
    split; [apply chained_first|].
    split; [intros k; apply chained_other|exact Hdrawn].
  - intros request result w m Hm r.
    destruct (reconcile_returns request result w)
      as (result' & Hret & _ & _ & _ & Hmsg).
    fold r in Hret, Hmsg.
    destruct (Hmsg m Hm) as (m' & Hm' & _ & Hentries & Hdrawn).
    exists result', m'. rewrite Hentries.
    repeat split; auto using chained_message_id.
  - intros m w r1.
    destruct (chain_message_id_entries m w)
      as (m1 & Hret1 & _ & _ & _ & _ & Hentries1 & Hdrawn1 & _).
    fold r1 in Hret1, Hentries1, Hdrawn1.
    exists m1. split; [exact Hret1|]. intros r2.
    destruct (chain_message_id_entries m1 (after r1))
      as (m2 & Hret2 & _ & _ & _ & _ & Hentries2 & _).
    fold r2 in Hret2, Hentries2.
    exists m2. split; [exact Hret2|].
    rewrite Hentries2, Hentries1, Hdrawn1.
    split; [apply chained_message_id|].
    split; [apply chained_last_message_id, chained_message_id|].
    split; [apply chained_message_id|].
    intros Hinj Heq. apply Hinj in Heq. lia.
  - intros request result w m ls previous Hm Hls Hprev Halias r.
    destruct (reconcile_returns request result w)
      as (result' & Hret & _ & _ & _ & Hmsg).
    fold r in Hret, Hmsg.
    destruct (Hmsg m Hm) as (m' & Hm' & _ & Hentries & _).
    exists result', m'. rewrite Hentries.
    split; [exact Hret|]. split; [exact Hm'|].
    split; [|apply chained_message_id].
    apply chained_last_message_id.
    apply (merged_message_entries _ _ _ ls); [exact Hls|].
    rewrite merge_metadata_frame; [exact Hprev| |exact Halias].
    apply deref_nonempty_allocated. intros He.
    rewrite He, lookup_empty in Hprev. discriminate.
Qed.


(** *** The streaming loop *)

(** One turn of the loop. *)
Lemma consume_next request (cb : option (TaskUpdateCallback CB)) x rest task
    (w : world CB) :
  exists x' w',
    reconcile CB uuid4 request x w = mkOutcome [] w' (inr x') /\
    is_final x' = is_final x /\
    consume CB uuid4 card request cb (Next x rest) task w =
      match cb with
      | Some callback =>
          let st := callback (callback_state w') (dicts w') x' card in
          let w'' := mkWorld (dicts w') (drawn w') (fst st) in
          if is_final x then mkOutcome [x'] w'' (inr (Some (snd st), rest))
          else
            match consume CB uuid4 card request cb rest (Some (snd st)) w'' with
            | mkOutcome out w3 r => mkOutcome (x' :: out) w3 r
            end
      | None =>
          if is_final x then mkOutcome [] w' (inr (task, rest))
          else
            match consume CB uuid4 card request None rest task w' with
            | mkOutcome out w3 r => mkOutcome out w3 r
            end
      end.
Proof.
  destruct (reconcile_returns request x w) as (x' & Hret & Hout & Hfinal & _).
  cbv zeta in *.
  destruct (reconcile CB uuid4 request x w) as [out w' res] eqn:Hrec.
  cbn in Hret, Hout. subst out res.
  exists x', w'. split; [reflexivity|]. split; [exact Hfinal|].
  cbn -[reconcile]. rewrite Hrec, Hfinal.
  destruct cb as [callback|]; cbn -[reconcile].
  - unfold call.
    destruct (callback (callback_state w') (dicts w') x' card) as [s t]. cbn.
    destruct (is_final x); [reflexivity|].
    now destruct (consume CB uuid4 card request _ rest _ _).
  - destruct (is_final x); [reflexivity|].
    now destruct (consume CB uuid4 card request _ rest _ _).
Qed.

(** The loop over results none of which is final: it returns, has called
    the callback once per result, and goes on with what follows. *)
Lemma consume_prefix request (cb : option (TaskUpdateCallback CB)) pre :
  Forall (fun r => is_final r = false) pre ->
  forall task (w : world CB),
  exists out w1 task1,
    consume CB uuid4 card request cb (results_then pre Ended) task w =
      mkOutcome out w1 (inr (task1, Ended)) /\
    length out = match cb with Some _ => length pre | None => 0 end /\
    (cb = None -> task1 = task) /\
    (pre = [] -> task1 = task /\ w1 = w) /\
    forall tail,
      consume CB uuid4 card request cb (results_then pre tail) task w =
        match consume CB uuid4 card request cb tail task1 w1 with
        | mkOutcome out' w2 r => mkOutcome (out ++ out') w2 r
        end.
Proof.
  induction 1 as [|x pre Hx _ IH]; intros task w.
  - exists [], w, task. cbn [results_then consume].
    split; [reflexivity|]. split; [now destruct cb|].
    split; [auto|]. split; [auto|].
    intros tail. now destruct (consume CB uuid4 card request cb tail task w).
  - cbn [results_then].
    destruct (consume_next request cb x (results_then pre Ended) task w)
      as (x' & w' & Hrec & _ & Hstep).
    rewrite Hx in Hstep.
    destruct cb as [callback|].
    + cbv zeta in Hstep.
      set (st := callback (callback_state w') (dicts w') x' card) in *.
      set (w'' := mkWorld (dicts w') (drawn w') (fst st)) in *.
      destruct (IH (Some (snd st)) w'') as (out & w1 & task1 & Hrun & Hlen & _ & _ & Htail).
      rewrite Hrun in Hstep.
      exists (x' :: out), w1, task1. split; [exact Hstep|].
      split; [cbn; now rewrite Hlen|]. split; [discriminate|]. split; [discriminate|].
      intros tail.
      destruct (consume_next request (Some callback) x (results_then pre tail) task w)
        as (x2 & w2 & Hrec2 & _ & Hstep2).
      rewrite Hrec in Hrec2. injection Hrec2 as <- <-.
      rewrite Hx in Hstep2. cbv zeta in Hstep2. fold st w'' in Hstep2.
      rewrite Hstep2, Htail.
      now destruct (consume CB uuid4 card request (Some callback) tail task1 w1).
    + destruct (IH task w') as (out & w1 & task1 & Hrun & Hlen & Htask & _ & Htail).
      rewrite Hrun in Hstep.
      exists out, w1, task1. split; [exact Hstep|].
      split; [exact Hlen|]. split; [exact Htask|]. split; [discriminate|].
      intros tail.
      destruct (consume_next request None x (results_then pre tail) task w)
        as (x2 & w2 & Hrec2 & _ & Hstep2).
      rewrite Hrec in Hrec2. injection Hrec2 as <- <-.
      rewrite Hx in Hstep2. rewrite Hstep2, Htail.
      now destruct (consume CB uuid4 card request None tail task1 w1).
Qed.


(** The last turn of the loop: on a final result, or on the last result of
    a stream that then ends. *)
Lemma consume_last request (cb : option (TaskUpdateCallback CB)) last tail task
    (w : world CB) :
  is_final last = true \/ tail = Ended ->
  exists last' w',
    reconcile CB uuid4 request last w = mkOutcome [] w' (inr last') /\
    consume CB uuid4 card request cb (Next last tail) task w =
      match cb with
      | Some callback =>
          let st := callback (callback_state w') (dicts w') last' card in
          mkOutcome [last'] (mkWorld (dicts w') (drawn w') (fst st))
            (inr (Some (snd st), tail))
      | None => mkOutcome [] w' (inr (task, tail))
      end.
Proof.
  intros Hlast.
  destruct (consume_next request cb last tail task w) as (x' & w' & Hrec & _ & Hstep).
  exists x', w'. split; [exact Hrec|]. rewrite Hstep.
  destruct cb as [callback|]; cbv zeta;
    destruct (is_final last); try reflexivity;
    destruct Hlast as [[=]| ->]; reflexivity.
Qed.

(** C8. [send_task] on a card that advertises streaming.  The remote stream
    delivers the results [pre], none of them final, then [last], then
    [tail]; [last] is final, or the stream ends after it.  With a callback:
    the callback is called with the submitted snapshot, then once with each
    result of [pre] and once with [last] (each as [reconcile] left it);
    [send_task] returns the task that the callback returned for [last], and
    [tail] has not been read.  Without a callback it returns [None], and
    [tail] has not been read.  When the stream delivers nothing it returns
    [None], callback or not. *)
Theorem send_task_streaming_stops_at_final request (w : world CB) :
  card_streaming card = true ->
  let responses := client_send_task_streaming agent_client request in
  (forall callback pre last tail,
     responses = results_then pre (Next last tail) ->
     Forall (fun r => is_final r = false) pre ->
     is_final last = true \/ tail = Ended ->
     let r := send_task CB uuid4 agent_client card request (Some callback) w in
     let w0 := after (call CB card callback (submitted request) w) in
     let r1 :=
       consume CB uuid4 card request (Some callback) (results_then pre Ended) None w0 in
     let r2 := reconcile CB uuid4 request last (after r1) in
     exists last',
       returned r2 = inr last' /\
       returned r =
         inr (PTask (snd (callback (callback_state (after r2)) (dicts (after r2))
                            last' card)),
              tail) /\
       emitted r = submitted request :: emitted r1 ++ [last'] /\
       length (emitted r1) = length pre) /\
  (forall pre last tail,
     responses = results_then pre (Next last tail) ->
     Forall (fun r => is_final r = false) pre ->
     is_final last = true \/ tail = Ended ->
     let r := send_task CB uuid4 agent_client card request None w in
     returned r = inr (PNone, tail) /\ emitted r = []) /\
  (responses = Ended ->
   forall cb,
     returned (send_task CB uuid4 agent_client card request cb w) =
       inr (PNone, Ended)).
Proof.
  intros Hstreaming responses. subst responses. split; [|split].
  - intros callback pre last tail Hstream Hpre Hlast r w0 r1 r2.
    destruct (consume_prefix request (Some callback) pre Hpre None w0)
      as (out & w1 & task1 & Hrun & Hlen & _ & _ & Htail).
    destruct (consume_last request (Some callback) last tail task1 w1 Hlast)
      as (last' & w' & Hrec & Hstep).
    assert (after r1 = w1) as Hw1 by (subst r1; now rewrite Hrun).
    assert (emitted r1 = out) as Hout by (subst r1; now rewrite Hrun).
    subst r2. rewrite Hw1, Hrec, Hout. cbn [returned after].
    exists last'. split; [reflexivity|].
    subst r. unfold send_task. rewrite Hstreaming, Hstream.
    cbn -[consume call]. fold w0.
    assert (call CB card callback (submitted request) w =
            mkOutcome [submitted request] w0
              (inr (snd (callback (callback_state w) (dicts w)
                           (submitted request) card)))) as ->.
    { subst w0. unfold call.
      now destruct (callback (callback_state w) (dicts w) (submitted request) card). }
    rewrite Htail, Hstep. cbn. rewrite app_nil_r. auto.
  - intros pre last tail Hstream Hpre Hlast r.
    destruct (consume_prefix request None pre Hpre None w)
      as (out & w1 & task1 & Hrun & Hlen & Htask & _ & Htail).
    rewrite (Htask eq_refl) in *.
    destruct (consume_last request None last tail None w1 Hlast)
      as (last' & w' & Hrec & Hstep).
    subst r. unfold send_task. rewrite Hstreaming, Hstream.
    cbn -[consume]. rewrite Htail, Hstep. cbn.
    destruct out; [auto|discriminate].
  - intros Hstream cb. unfold send_task. rewrite Hstreaming, Hstream.
    destruct cb as [callback|]; cbn; [|reflexivity]. unfold call.
    now destruct (callback (callback_state w) (dicts w) (submitted request) card).
Qed.

End DispatcherProperties.

(** *** The sample runs of the connection *)

Section RemoteAgentSamples.
Import RemoteAgent RemoteSamples.
Local Open Scope list_scope.

(** C6, as stated, fails: the source holds a mapping, an empty one, and the
    target holds none; the call changes nothing, the target's metadata is
    still [None] and not a copy of the source's mapping. *)
Lemma merge_metadata_counterexample :
  let after_call := merge_metadata bare_message empty_metadata_message sample_dicts in
  mapping_of sample_dicts empty_metadata_message = Some ∅ /\
  mapping_of sample_dicts bare_message = None /\
  after_call = (sample_dicts, bare_message) /\
  mapping_of (fst after_call) (snd after_call) <> Some ∅.
Proof.
  cbv zeta. split; [reflexivity|]. split; [reflexivity|].
  split; [reflexivity|]. discriminate.
Qed.

Lemma merge_metadata_spec_witness :
  exists l,
    (l ∉ dom sample_dicts) /\
    metadata_of (snd (merge_metadata bare_message sample_message sample_dicts)) =
      Attr (Some l) /\
    mapping_of (fst (merge_metadata bare_message sample_message sample_dicts))
      (snd (merge_metadata bare_message sample_message sample_dicts)) =
      Some {[ "message_id" := VStr "m-0" ]}.
Proof.
  destruct (proj2 (proj2 (proj2
              (@merge_metadata_spec Message Message Message_metadata Message_metadata
                 bare_message sample_message sample_dicts)))
              {[ "message_id" := VStr "m-0" ]} eq_refl eq_refl
              (insert_non_empty _ _ _))
    as (l & Hfresh & Hmeta & _ & Hmap & _).
  exists l. auto.
Defined.

Lemma message_id_chaining_witness :
  let r :=
    reconcile nat sample_uuid4 sample_request
      (sample_update WORKING "writing" false) sample_world in
  exists result' m',
    returned r = inr result' /\ message_of result' = Some m' /\
    entries (dicts (after r)) m' !! "last_message_id" = Some (VStr "m-0") /\
    entries (dicts (after r)) m' !! "message_id" = Some (VStr (sample_uuid4 0)).
Proof.
  refine (proj2 (proj2 (proj2 (message_id_chaining sample_uuid4)))
            sample_request (sample_update WORKING "writing" false) sample_world
            (mkMessage "agent" [TextPart (VStr "writing")] None) 1%positive
            (VStr "m-0") eq_refl eq_refl eq_refl _).
  discriminate.
Defined.

Lemma send_task_streaming_stops_at_final_witness :
  let r :=
    send_task nat sample_uuid4 sample_client sample_card sample_request
      (Some sample_callback) sample_world in
  exists t,
    returned r = inr (PTask t, Next sample_artifact_update Ended) /\
    length (emitted r) = 3.
Proof.
  assert (Hpre : Forall (fun r => is_final r = false)
                   [sample_update WORKING "writing" false])
    by (repeat constructor).
  destruct (proj1 (send_task_streaming_stops_at_final sample_uuid4 sample_client
                     sample_card sample_request sample_world eq_refl)
              sample_callback [sample_update WORKING "writing" false]
              (sample_update COMPLETED "done" true)
              (Next sample_artifact_update Ended) eq_refl Hpre (or_introl eq_refl))
    as (last' & _ & Hret & Hout & Hlen).
  eexists. split; [exact Hret|].
  rewrite Hout. cbn [length]. rewrite length_app, Hlen. reflexivity.
Defined.

(** The same run, evaluated: the task of the final update is returned, the
    callback has been called three times, and the artifact update that the
    remote would deliver after the final one is unread. *)
Lemma send_task_sample_run :
  let r :=
    send_task nat sample_uuid4 sample_client sample_card sample_request
      (Some sample_callback) sample_world in
  returned r =
    inr (PTask (mkTask "task-1" "session-1" (mkTaskStatus COMPLETED None)
                  None None None),
         Next sample_artifact_update Ended) /\
  callback_state (after r) = 3 /\
  List.map is_final (emitted r) = [false; false; true].
Proof. vm_compute. repeat split. Qed.

End RemoteAgentSamples.

(** * Further properties of the task manager *)

Section MoreTaskManagerProperties.
Import TaskManager TaskManagerMore.
Local Open Scope list_scope.

Variable json_loads : string -> option value.
Variable agent : Agent.

(** X1. The only exception that leaves [_stream_generator] is the one of
    [_get_user_query], which is called before [try]: when the message of the
    request has no part, or its first part is not a text part, the generator
    raises ([IndexError], [AttributeError]) without yielding anything, not
    even the error response, and without touching the store or calling the
    agent; in every other case it ends normally. *)
Theorem stream_generator_raises_only_for_query request w :
  let r := _stream_generator json_loads agent request w in
  let first_parts := msg_parts (tsp_message (req_params request)) in
  (forall e, returned r = inl e <-> _get_user_query (req_params request) = inl e) /\
  (forall e, returned r = inl e -> emitted r = [] /\ after r = w) /\
  (first_parts = [] -> returned r = inl IndexError) /\
  (forall d rest, first_parts = DataPart d :: rest ->
     returned r = inl (AttributeError "text")) /\
  (forall text rest, first_parts = TextPart text :: rest -> returned r = inr tt).
Proof.
  intros r first_parts.
  assert (Hfail : forall e, _get_user_query (req_params request) = inl e ->
                    r = mkOutcome [] w (inl e)).
  { intros e He. subst r. unfold _stream_generator. rewrite He. reflexivity. }
  assert (Hok : forall q, _get_user_query (req_params request) = inr q ->
                  returned r = inr tt).
  { intros q Hq. apply (generator_shape json_loads agent request q w Hq). }
  split; [|split; [|split; [|split]]].
  - intros e. destruct (_get_user_query (req_params request)) as [e'|q] eqn:Hq.
    + rewrite (Hfail e' eq_refl). cbn. split; intros [= ->]; reflexivity.
    + rewrite (Hok q eq_refl). split; discriminate.
  - intros e He. destruct (_get_user_query (req_params request)) as [e'|q] eqn:Hq.
    + rewrite (Hfail e' eq_refl). auto.
    + rewrite (Hok q eq_refl) in He. discriminate.
  - intros Hparts. rewrite (Hfail IndexError); [reflexivity|].
    unfold _get_user_query. fold first_parts. now rewrite Hparts.
  - intros d rest Hparts. rewrite (Hfail (AttributeError "text")); [reflexivity|].
    unfold _get_user_query. fold first_parts. now rewrite Hparts.
  - intros text rest Hparts. apply (Hok text).
    unfold _get_user_query. fold first_parts. now rewrite Hparts.
Qed.


(** *** What a run does to the store *)

Lemma artifacts_of_updated t status arts :
  artifacts_of (updated t status arts) =
    artifacts_of t ++ match arts with Some new => new | None => [] end.
Proof.
  unfold artifacts_of, updated; cbn.
  destruct arts as [new|], (t_artifacts t) as [old|]; cbn;
    rewrite ?app_nil_r; reflexivity.
Qed.

Lemma keyed_insert_updated store k t status arts :
  keyed store -> store !! k = Some t ->
  keyed (<[k := updated t status arts]> store).
Proof.
  intros Hkeyed Hlook k' t'. destruct (decide (k = k')) as [<-|Hne].
  - rewrite lookup_insert_eq. intros [= <-]. cbn. now apply Hkeyed.
  - rewrite lookup_insert_ne by exact Hne. apply Hkeyed.
Qed.

(** The store after a run of the generator: as it was, or with the task of
    the request updated once. *)
Lemma stream_generator_store request w :
  let r := _stream_generator json_loads agent request w in
  tasks (after r) = tasks w \/
  exists t s p c,
    tasks w !! tsp_id (req_params request) = Some t /\
    emitted r =
      status_event request s p ::
      (if truthy c
       then [artifact_event request (terminal_artifact p); final_event request s]
       else []) /\
    tasks (after r) =
      <[tsp_id (req_params request) :=
          updated t (mkTaskStatus s (Some (mkMessage "agent" p None)))
            (if truthy c then Some [terminal_artifact p] else None)]> (tasks w).
Proof.
  intros r. destruct (_get_user_query (req_params request)) as [e|q] eqn:Hq.
  { left. subst r. unfold _stream_generator. rewrite Hq. reflexivity. }
  destruct (generator_shape json_loads agent request q w Hq)
    as [_ [(e & _ & _ & Hsame)|(l & c & s & p & t & Hs)]].
  - left. exact Hsame.
  - right. decompose [and] Hs. exists t, s, p, c. auto.
Qed.

(** X2. A run of [_stream_generator] never adds a task to the store and
    never removes one; it leaves every task but the request's alone; and of
    the request's task it keeps the identifier, the session, the history and
    the metadata, and only ever appends to the artifacts, at most one. *)
Theorem stream_generator_store_frame request w :
  let r := _stream_generator json_loads agent request w in
  let id := tsp_id (req_params request) in
  dom (tasks (after r)) = dom (tasks w) /\
  (forall k, k <> id -> tasks (after r) !! k = tasks w !! k) /\
  (forall t, tasks w !! id = Some t ->
     exists t' new,
       tasks (after r) !! id = Some t' /\
       t_id t' = t_id t /\ t_sessionId t' = t_sessionId t /\
       t_history t' = t_history t /\ t_metadata t' = t_metadata t /\
       artifacts_of t' = artifacts_of t ++ new /\ length new <= 1).
Proof.
  intros r id.
  destruct (stream_generator_store request w) as [Hsame|(t & s & p & c & Hlook & _ & Hnew)];
    fold r in Hsame || fold r id in Hlook, Hnew.
  - rewrite Hsame. split; [reflexivity|]. split; [reflexivity|].
    intros t Hlook. exists t, []. rewrite app_nil_r. cbn. repeat split; auto.
  - rewrite Hnew. split; [|split].
    + apply dom_insert_lookup_L. eauto.
    + intros k Hne. apply lookup_insert_ne. congruence.
    + intros t0 Ht0. rewrite Hlook in Ht0. injection Ht0 as <-.
      eexists _, _. split; [apply lookup_insert_eq|].
      rewrite artifacts_of_updated. repeat split.
      destruct (truthy c); cbn; lia.
Qed.

(** X3. When every task is filed under its own identifier, it stays so
    through [_update_store], [_invoke] and a run of [_stream_generator]. *)
Theorem task_identifiers_stay_keyed request task_id status arts w :
  keyed (tasks w) ->
  keyed (tasks (after (_update_store task_id status arts w))) /\
  keyed (tasks (after (_invoke agent request w))) /\
  keyed (tasks (after (_stream_generator json_loads agent request w))).
Proof.
  intros Hkeyed. split; [|split].
  - unfold _update_store. cbn.
    destruct (tasks w !! task_id) as [t|] eqn:Hlook; cbn; [|exact Hkeyed].
    now apply keyed_insert_updated.
  - unfold _invoke, _update_store, log. cbv zeta.
    destruct (_get_user_query (req_params request)) as [e|q]; cbn; [exact Hkeyed|].
    destruct (invoke agent q _) as [e|result]; cbn; [exact Hkeyed|].
    destruct (contains "MISSING_INFO:" result) as [e|missing]; cbn; [exact Hkeyed|].
    destruct (tasks w !! tsp_id (req_params request)) as [t|] eqn:Hlook; cbn;
      [|exact Hkeyed].
    now apply keyed_insert_updated.
  - destruct (stream_generator_store request w)
      as [->|(t & s & p & c & Hlook & _ & ->)]; [exact Hkeyed|].
    now apply keyed_insert_updated.
Qed.


(** X4. What is streamed is what was stored.  When the first response of the
    generator is a status event, the task of the request is in the store
    with exactly the status of that event; an artifact event that follows
    carries the artifact that is now the last of the task's artifacts; and a
    final event that follows carries the stored state. *)
Theorem streamed_status_is_stored request w e rest :
  emitted (_stream_generator json_loads agent request w) =
    SendTaskStreamingResponse (req_id request) (StatusUpdate e) :: rest ->
  let r := _stream_generator json_loads agent request w in
  exists t',
    tasks (after r) !! tsp_id (req_params request) = Some t' /\
    t_status t' = sue_status e /\
    (forall x a, x ∈ rest -> as_artifact x = Some a ->
       last (artifacts_of t') = Some (aue_artifact a)) /\
    (forall x f, x ∈ rest -> as_status x = Some f ->
       sue_final f = true /\ st_state (sue_status f) = st_state (t_status t')).
Proof.
  intros Hout r.
  destruct (_get_user_query (req_params request)) as [err|q] eqn:Hq.
  { exfalso. revert Hout. unfold _stream_generator. rewrite Hq. discriminate. }
  destruct (generator_shape json_loads agent request q w Hq)
    as [_ [(err & _ & Herr & _)|
           (l & c & s & p & t & _ & _ & _ & _ & _ & _ & _ & _ & Hshape & Hstore)]].
  { exfalso. rewrite Herr in Hout. discriminate. }
  fold r in Hstore. rewrite Hshape in Hout. injection Hout as <- <-.
  eexists. rewrite Hstore. split; [apply lookup_insert_eq|]. split; [reflexivity|].
  split.
  - intros x a Hx Ha. rewrite artifacts_of_updated.
    destruct (truthy c); [|now apply elem_of_nil in Hx].
    rewrite last_snoc.
    apply elem_of_cons in Hx as [->|Hx]; [cbn in Ha; injection Ha as <-; reflexivity|].
    apply list_elem_of_singleton in Hx as ->. discriminate.
  - intros x f Hx Hf.
    destruct (truthy c); [|now apply elem_of_nil in Hx].
    apply elem_of_cons in Hx as [->|Hx]; [discriminate|].
    apply list_elem_of_singleton in Hx as ->. cbn in Hf. injection Hf as <-.
    auto.
Qed.


(** *** Which updates count *)

(** A turn of the loop does not depend on what the turns before it left in
    the variables. *)
Lemma loop_body_view item l1 l2 :
  match loop_body json_loads item l1, loop_body json_loads item l2 with
  | inr a, inr b => same_view a b
  | inl e1, inl e2 => e1 = e2
  | _, _ => False
  end.
Proof.
  unfold loop_body, same_view.
  destruct (getitem item "is_task_complete") as [e|c]; cbn; [reflexivity|].
  destruct (truthy c); cbn.
  - destruct (getitem item "content") as [e|content]; cbn; [reflexivity|].
    destruct (is_dict content); cbn; [|auto].
    destruct (contains "response" content) as [e|[]]; cbn; [reflexivity| |auto].
    destruct (getitem content "response") as [e|r]; cbn; [reflexivity|].
    destruct (contains "result" r) as [e|[]]; cbn; [reflexivity| |auto].
    destruct (getitem r "result") as [e|x]; cbn; [reflexivity|].
    destruct (loads json_loads x) as [e|d]; cbn; [reflexivity|auto].
  - destruct (getitem item "updates") as [e|u]; cbn; [reflexivity|auto].
Qed.

Lemma after_loop_view request l1 l2 w :
  same_view l1 l2 -> after_loop request l1 w = after_loop request l2 w.
Proof.
  intros (Hc & Ha & Hs & Hp). unfold after_loop. now rewrite Hc, Ha, Hs, Hp.
Qed.

(** X5. The last update wins.  Two upstreams that end with the same update
    make the generator yield the same responses and leave the same store,
    whatever updates came before, as long as those could be read: the
    updates before the last one leave no trace. *)
Theorem stream_last_update_wins (agent1 agent2 : Agent) request query w
    items1 items2 last l1 l2 :
  _get_user_query (req_params request) = inr query ->
  stream agent1 query (tsp_sessionId (req_params request)) =
    updates_then items1 (Yields last Exhausted) ->
  stream agent2 query (tsp_sessionId (req_params request)) =
    updates_then items2 (Yields last Exhausted) ->
  async_for json_loads (updates_then items1 Exhausted) unassigned = inr l1 ->
  async_for json_loads (updates_then items2 Exhausted) unassigned = inr l2 ->
  let r1 := _stream_generator json_loads agent1 request w in
  let r2 := _stream_generator json_loads agent2 request w in
  emitted r1 = emitted r2 /\ tasks (after r1) = tasks (after r2) /\
  returned r1 = returned r2.
Proof.
  intros Hq Hs1 Hs2 Hp1 Hp2 r1 r2. subst r1 r2.
  rewrite (stream_generator_run json_loads agent1 _ _ _ Hq).
  rewrite (stream_generator_run json_loads agent2 _ _ _ Hq). cbv zeta.
  rewrite !try_body_run, Hs1, Hs2.
  rewrite (async_for_app json_loads items1 (Yields last Exhausted)), Hp1.
  rewrite (async_for_app json_loads items2 (Yields last Exhausted)), Hp2.
  cbn [async_for].
  pose proof (loop_body_view last l1 l2) as Hview.
  destruct (loop_body json_loads last l1) as [e1|a],
           (loop_body json_loads last l2) as [e2|b]; try contradiction; cbn.
  - subst e2. auto.
  - rewrite (after_loop_view request a b _ Hview).
    destruct (after_loop request b _) as [out w' [e|[]]]; cbn; auto.
Qed.

(** X6. One unreadable update spoils the stream.  When an update has no
    "is_task_complete", or lacks the field that its flag calls for
    ("updates", "content"), and the updates before it could be read, the
    generator yields one response only, the JSON-RPC response with the
    identifier of the request and an [InternalError], and leaves the store
    as it was, whatever updates the upstream has after it. *)
Theorem unreadable_update_ends_stream request query w items bad rest l0 :
  _get_user_query (req_params request) = inr query ->
  stream agent query (tsp_sessionId (req_params request)) =
    updates_then items (Yields bad rest) ->
  async_for json_loads (updates_then items Exhausted) unassigned = inr l0 ->
  unreadable bad = true ->
  let r := _stream_generator json_loads agent request w in
  emitted r =
    [JSONRPCResponse (req_id request)
       (InternalError "An error occurred while streaming the response")] /\
  returned r = inr tt /\ tasks (after r) = tasks w.
Proof.
  intros Hq Hstream Hprefix Hbad r. subst r.
  assert (exists e, loop_body json_loads bad l0 = inl e) as [e He].
  { unfold unreadable in Hbad. unfold loop_body.
    destruct (getitem bad "is_task_complete") as [e|c]; cbn; [eauto|].
    destruct (truthy c); cbn.
    - destruct (getitem bad "content") as [e|x]; cbn; [eauto|discriminate].
    - destruct (getitem bad "updates") as [e|x]; cbn; [eauto|discriminate]. }
  rewrite (stream_generator_run _ _ _ _ _ Hq). cbv zeta.
  rewrite try_body_run, Hstream, async_for_app, Hprefix. cbn [async_for].
  rewrite He. cbn. auto.
Qed.

(** *** The unary path *)

(** X7. [_invoke] yields nothing, and when it raises the store is as it was.
    It raises what [_get_user_query] raises; a [ValueError] around what the
    agent raised; the [TypeError] of the test for "MISSING_INFO:" on a
    result that cannot be searched, which is not wrapped; or the not-found
    [ValueError] when the task is not in the store, after the agent has
    been called.  When it returns, the agent has answered and the answer
    could be searched; the response carries the stored task: the task of the
    request with one artifact more, whose one part is the answer as text,
    and with a new status, whose state is [INPUT_REQUIRED] when
    "MISSING_INFO:" was found in the answer and [COMPLETED] when it was not
    and whose message is the agent's, with the same part; identifier,
    session and history are kept, and no other task is touched. *)
Theorem invoke_store_effect request w :
  let r := _invoke agent request w in
  let id := tsp_id (req_params request) in
  let session := tsp_sessionId (req_params request) in
  emitted r = [] /\
  (forall e, returned r = inl e -> tasks (after r) = tasks w) /\
  (forall e, _get_user_query (req_params request) = inl e ->
     returned r = inl e /\ after r = w) /\
  (forall q, _get_user_query (req_params request) = inr q ->
     trace (after r) = trace w ++ [CallInvoke q session] /\
     (forall cause, invoke agent q session = inl cause ->
        returned r = inl (ValueError_invoking cause)) /\
     (forall result e, invoke agent q session = inr result ->
        contains "MISSING_INFO:" result = inl e -> returned r = inl e) /\
     (forall result missing, invoke agent q session = inr result ->
        contains "MISSING_INFO:" result = inr missing ->
        tasks w !! id = None -> returned r = inl (ValueError_not_found id))) /\
  (forall response, returned r = inr response ->
     exists t t' a q result missing,
       tasks w !! id = Some t /\
       response = SendTaskResponse (req_id request) t' /\
       tasks (after r) = <[id := t']> (tasks w) /\
       t_id t' = t_id t /\ t_sessionId t' = t_sessionId t /\
       t_history t' = t_history t /\
       artifacts_of t' = artifacts_of t ++ [a] /\
       st_message (t_status t') = Some (mkMessage "agent" (art_parts a) None) /\
       _get_user_query (req_params request) = inr q /\
       invoke agent q session = inr result /\
       contains "MISSING_INFO:" result = inr missing /\
       a = mkArtifact [TextPart result] None None /\
       st_state (t_status t') = (if missing then INPUT_REQUIRED else COMPLETED) /\
       (st_state (t_status t') = INPUT_REQUIRED \/
        st_state (t_status t') = COMPLETED)).
Proof.
  intros r id session. subst r id session.
  unfold _invoke, _update_store, log. cbv zeta.
  destruct (_get_user_query (req_params request)) as [e|q] eqn:Hq; cbn.
  { split; [reflexivity|]. split; [reflexivity|].
    split; [intros e0 [= <-]; auto|].
    split; [intros q [=]|intros response [=]]. }
  split; [destruct (invoke agent q _) as [cause|result]; cbn;
          [reflexivity|
           destruct (contains "MISSING_INFO:" result) as [e|missing]; cbn;
           [reflexivity|
            destruct (tasks w !! tsp_id (req_params request)); reflexivity]]|].
  split.
  { intros e.
    destruct (invoke agent q _) as [cause|result]; cbn; [reflexivity|].
    destruct (contains "MISSING_INFO:" result) as [e'|missing]; cbn; [reflexivity|].
    destruct (tasks w !! tsp_id (req_params request)); cbn;
      [discriminate|reflexivity]. }
  split; [intros e [=]|].
  split.
  { intros q' [= <-]. split; [|split; [|split]].
    - destruct (invoke agent q _) as [cause|result]; cbn; [reflexivity|].
      destruct (contains "MISSING_INFO:" result) as [e'|missing]; cbn; [reflexivity|].
      destruct (tasks w !! tsp_id (req_params request)); reflexivity.
    - intros cause ->. reflexivity.
    - intros result e -> Hin. cbn. rewrite Hin. reflexivity.
    - intros result missing -> Hin Hnone. cbn. rewrite Hin. cbn.
      rewrite Hnone. reflexivity. }
  intros response.
  destruct (invoke agent q _) as [cause|result] eqn:Hinvoke; cbn; [discriminate|].
  destruct (contains "MISSING_INFO:" result) as [e'|missing] eqn:Hin; cbn;
    [discriminate|].
  destruct (tasks w !! tsp_id (req_params request)) as [t|] eqn:Hlook; cbn;
    [|discriminate].
  intros [= <-]. eexists t, _, _, q, result, missing.
  split; [reflexivity|]. split; [reflexivity|]. split; [reflexivity|].
  rewrite artifacts_of_updated. cbn.
  repeat (split; [reflexivity|]). split; [exact Hinvoke|]. split; [exact Hin|].
  repeat (split; [reflexivity|]). destruct missing; auto.
Qed.

End MoreTaskManagerProperties.

Section MoreStoreProperties.
Import TaskManager TaskManagerMore.
Local Open Scope list_scope.

Lemma updated_twice t s1 a1 s2 a2 :
  updated (updated t s1 a1) s2 a2 = updated t s2 (both a1 a2).
Proof.
  unfold updated, both; cbn.
  destruct a1 as [x|], a2 as [y|], (t_artifacts t) as [old|]; cbn;
    rewrite <- ?app_assoc; reflexivity.
Qed.

(** X8. Two calls of [_update_store] on a task of the store amount to one
    call with the second status and the artifacts of both calls, those of
    the first before those of the second: statuses overwrite, artifacts
    accumulate in order. *)
Theorem update_store_twice task_id s1 a1 s2 a2 w t :
  tasks w !! task_id = Some t ->
  let r1 := _update_store task_id s1 a1 w in
  _update_store task_id s2 a2 (after r1) =
    _update_store task_id s2 (both a1 a2) w.
Proof.
  intros Hlook r1. subst r1. unfold _update_store. cbn.
  rewrite Hlook. cbn. rewrite lookup_insert_eq. cbn.
  rewrite insert_insert_eq, updated_twice. reflexivity.
Qed.

End MoreStoreProperties.

(** * Further properties of the remote agent connection *)

Section MoreMetadataProperties.
Import RemoteAgent RemoteAgentMore.
Local Open Scope list_scope.

Context {T U : Type} {HT : HasMetadata T} {HU : HasMetadata U}.

Lemma union_nonempty_l (d1 d2 : dict) : d1 <> ∅ -> d1 ∪ d2 <> ∅.
Proof.
  intros Hne He. apply Hne. apply map_eq. intros k. rewrite lookup_empty.
  assert ((d1 ∪ d2) !! k = None) as Hk by (rewrite He; apply lookup_empty).
  apply lookup_union_None in Hk. tauto.
Qed.

(** The three ways a call can go. *)
Lemma merge_metadata_cases (target : T) (source : U) (h : heap) :
  merge_metadata target source h = (h, target) \/
  (exists lt ls,
     metadata_of target = Attr (Some lt) /\ metadata_of source = Attr (Some ls) /\
     deref h lt <> ∅ /\ deref h ls <> ∅ /\
     merge_metadata target source h =
       (<[lt := deref h ls ∪ deref h lt]> h, target)) \/
  (exists tm ls,
     metadata_of target = Attr tm /\ metadata_of source = Attr (Some ls) /\
     truthy_metadata h tm = false /\ deref h ls <> ∅ /\
     merge_metadata target source h =
       (<[fresh (dom h) := deref h ls]> h,
        with_metadata (Some (fresh (dom h))) target)).
Proof.
  unfold merge_metadata.
  destruct (metadata_of target) as [|tm] eqn:Hmt; [now left|].
  destruct (metadata_of source) as [|sm] eqn:Hms; [now left|].
  destruct (truthy_metadata h sm) eqn:Hsm;
    [|left; now rewrite andb_false_r].
  apply truthy_metadata_spec in Hsm as (ls & -> & Hls).
  destruct (truthy_metadata h tm) eqn:Htm; cbn.
  - apply truthy_metadata_spec in Htm as (lt & -> & Hlt).
    right; left. exists lt, ls. auto.
  - right; right. exists tm, ls. auto.
Qed.

(** X9. [merge_metadata] is idempotent: a second call with the same source
    changes neither the dicts nor the target. *)
Theorem merge_metadata_idempotent (target : T) (source : U) (h : heap) :
  let once := merge_metadata target source h in
  merge_metadata (snd once) source (fst once) = once.
Proof.
  intros once. subst once.
  destruct (merge_metadata_cases target source h)
    as [Hsame|[(lt & ls & Hmt & Hms & Hlt & Hls & Hrun)|
               (tm & ls & Hmt & Hms & Htm & Hls & Hrun)]].
  - rewrite Hsame. cbn. exact Hsame.
  - rewrite Hrun. cbn. unfold merge_metadata. rewrite Hmt, Hms.
    assert (deref (<[lt := deref h ls ∪ deref h lt]> h) lt =
            deref h ls ∪ deref h lt) as Hnew by apply deref_insert_eq.
    assert (deref (<[lt := deref h ls ∪ deref h lt]> h) ls ∪
            (deref h ls ∪ deref h lt) = deref h ls ∪ deref h lt) as Hunion.
    { destruct (decide (lt = ls)) as [->|Hne].
      - rewrite deref_insert_eq. apply (idemp_L (∪)).
      - rewrite deref_insert_ne by exact Hne.
        now rewrite (assoc_L (∪)), (idemp_L (∪)). }
    rewrite !truthy_metadata_nonempty.
    + cbn. rewrite Hnew, Hunion, insert_insert_eq. reflexivity.
    + destruct (decide (lt = ls)) as [->|Hne].
      * rewrite deref_insert_eq. now apply union_nonempty_l.
      * now rewrite deref_insert_ne by exact Hne.
    + rewrite Hnew. now apply union_nonempty_l.
  - rewrite Hrun. cbn. unfold merge_metadata.
    rewrite (metadata_assigned _ _ _ Hmt), Hms.
    assert (ls <> fresh (dom h)) as Hne.
    { intros Heq. apply (is_fresh (dom h)). rewrite <- Heq.
      now apply deref_nonempty_allocated. }
    assert (deref (<[fresh (dom h) := deref h ls]> h) ls = deref h ls) as Hsrc
      by (apply deref_insert_ne; congruence).
    rewrite !truthy_metadata_nonempty.
    + cbn. rewrite deref_insert_eq, Hsrc, (idemp_L (∪)), insert_insert_eq.
      reflexivity.
    + now rewrite Hsrc.
    + now rewrite deref_insert_eq.
Qed.

(** X10. [merge_metadata] changes at most one dict and loses none: every
    dict there was is still there; a dict that is not the target's own is as
    it was; and all the dicts but one are as they were (the one is the
    target's, updated in place, or a new one). *)
Theorem merge_metadata_changes_one_dict (target : T) (source : U) (h : heap) :
  let h' := fst (merge_metadata target source h) in
  dom h ⊆ dom h' /\
  (forall l, l ∈ dom h -> metadata_of target <> Attr (Some l) -> h' !! l = h !! l) /\
  (exists l, forall l', l' <> l -> h' !! l' = h !! l').
Proof.
  intros h'. subst h'.
  destruct (merge_metadata_cases target source h)
    as [Hsame|[(lt & ls & Hmt & Hms & Hlt & Hls & Hrun)|
               (tm & ls & Hmt & Hms & Htm & Hls & Hrun)]];
    rewrite ?Hsame, ?Hrun; cbn.
  - split; [reflexivity|]. split; [reflexivity|]. exists 1%positive. reflexivity.
  - split; [|split].
    + rewrite dom_insert_L. set_solver.
    + intros l _ Hl. apply lookup_insert_ne. congruence.
    + exists lt. intros l' Hl'. apply lookup_insert_ne. congruence.
  - split; [|split].
    + rewrite dom_insert_L. set_solver.
    + intros l Hin _. apply lookup_insert_ne. intros Heq.
      apply (is_fresh (dom h)). now rewrite Heq.
    + exists (fresh (dom h)). intros l' Hl'. apply lookup_insert_ne. congruence.
Qed.

End MoreMetadataProperties.

Section MoreDispatcherProperties.
Import RemoteAgent RemoteAgentMore.
Local Open Scope list_scope.

Context {CB : Type}.
Variable uuid4 : nat -> string.
Variable agent_client : A2AClient.
Variable card : AgentCard.

(** *** [reconcile] and the payload *)

Lemma merge_metadata_target {T U : Type} {HT : HasMetadata T} {HU : HasMetadata U}
    (target : T) (source : U) (h : heap) :
  snd (merge_metadata target source h) = target \/
  (exists old, metadata_of target = Attr old) /\
  snd (merge_metadata target source h) = with_metadata (Some (fresh (dom h))) target.
Proof.
  destruct (merge_metadata_cases target source h)
    as [->|[(lt & ls & _ & _ & _ & _ & ->)|(tm & ls & Hmt & _ & _ & _ & ->)]];
    cbn; eauto.
Qed.

Lemma bare_with_metadata v result : bare (with_metadata v result) = bare result.
Proof. now destruct result. Qed.

Lemma bare_with_message m m0 result :
  message_of result = Some m0 -> message_content m = message_content m0 ->
  bare (with_message m result) = bare result.
Proof.
  destruct result as [|t|e|e]; cbn; try discriminate.
  - destruct (t_status t) as [s msg]; cbn. intros -> Hm. cbn. now rewrite Hm.
  - destruct (sue_status e) as [s msg]; cbn. intros -> Hm. cbn. now rewrite Hm.
Qed.

Lemma bare_merge_metadata (result : payload) (request : TaskSendParams) h :
  bare (snd (merge_metadata result request h)) = bare result.
Proof.
  destruct (merge_metadata_target result request h) as [->|[_ ->]];
    [reflexivity|apply bare_with_metadata].
Qed.

Lemma message_content_merge_metadata (m source : Message) h :
  message_content (snd (merge_metadata m source h)) = message_content m.
Proof.
  now destruct (merge_metadata_target m source h) as [->|[_ ->]].
Qed.

Lemma merge_metadata_heap {T U : Type} {HT : HasMetadata T} {HU : HasMetadata U}
    (target : T) (source : U) (h : heap) :
  let h' := fst (merge_metadata target source h) in
  dom h ⊆ dom h' /\
  (forall l, l ∈ dom h -> metadata_of target <> Attr (Some l) -> h' !! l = h !! l).
Proof.
  intros h'. subst h'.
  destruct (merge_metadata_cases target source h)
    as [->|[(lt & ls & Hmt & _ & _ & _ & ->)|(tm & ls & _ & _ & _ & _ & ->)]]; cbn.
  - split; [reflexivity|]. reflexivity.
  - split; [rewrite dom_insert_L; set_solver|].
    intros l _ Hl. apply lookup_insert_ne. congruence.
  - split; [rewrite dom_insert_L; set_solver|].
    intros l Hin _. apply lookup_insert_ne. intros Heq.
    apply (is_fresh (dom h)). now rewrite Heq.
Qed.

Lemma merge_metadata_message (m source : Message) (h : heap) :
  msg_metadata (snd (merge_metadata m source h)) = msg_metadata m \/
  msg_metadata (snd (merge_metadata m source h)) = Some (fresh (dom h)).
Proof.
  destruct (merge_metadata_target m source h) as [->|[_ ->]]; auto.
Qed.

Lemma chain_message_id_heap (m : Message) (w : world CB) :
  let r := chain_message_id CB uuid4 m w in
  dom (dicts w) ⊆ dom (dicts (after r)) /\
  (forall l, l ∈ dom (dicts w) -> msg_metadata m <> Some l ->
     dicts (after r) !! l = dicts w !! l).
Proof.
  intros r. subst r.
  destruct (chain_message_id_run uuid4 m w) as (l0 & -> & Htrue & Hfalse). cbn.
  destruct (truthy_metadata (dicts w) (msg_metadata m)) eqn:Ht.
  - specialize (Htrue eq_refl). split; [rewrite dom_insert_L; set_solver|].
    intros l _ Hl. apply lookup_insert_ne. congruence.
  - specialize (Hfalse eq_refl). split; [rewrite !dom_insert_L; set_solver|].
    intros l Hin _. rewrite !lookup_insert_ne; [reflexivity| |];
      intros Heq; apply Hfalse; now rewrite Heq.
Qed.

(** What one [reconcile] does. *)
Lemma reconcile_step request x (w : world CB) :
  exists x' w',
    reconcile CB uuid4 request x w = mkOutcome [] w' (inr x') /\
    bare x' = bare x /\
    drawn w' = drawn w + (if has_message x then 1 else 0) /\
    callback_state w' = callback_state w /\
    dom (dicts w) ⊆ dom (dicts w') /\
    (forall l, l ∈ dom (dicts w) -> apart l x -> dicts w' !! l = dicts w !! l).
Proof.
  rewrite reconcile_run. cbv zeta.
  pose proof (bare_merge_metadata x request (dicts w)) as Hbare.
  destruct (merge_metadata_payload x _ request (dicts w)) as [Hmsg _].
  destruct (merge_metadata_heap x request (dicts w)) as [Hdom1 Hframe1].
  unfold has_message. rewrite Hmsg.
  destruct (message_of x) as [m|] eqn:Hm.
  - set (h1 := fst (merge_metadata x request (dicts w))) in Hdom1, Hframe1 |- *.
    destruct (merge_metadata_heap m (tsp_message request) h1) as [Hdom2 Hframe2].
    pose proof (merge_metadata_message m (tsp_message request) h1) as Hmeta.
    set (hm := merge_metadata m (tsp_message request) h1) in Hdom2, Hframe2, Hmeta |- *.
    destruct (chain_message_id_entries uuid4 (snd hm)
                (mkWorld (fst hm) (drawn w) (callback_state w)))
      as (m' & Hret & Hout & Hrole & Hparts & _ & _ & Hdrawn & Hcb).
    destruct (chain_message_id_heap (snd hm)
                (mkWorld (fst hm) (drawn w) (callback_state w)))
      as [Hdom3 Hframe3].
    cbv zeta in Hret, Hout, Hdrawn, Hcb, Hdom3, Hframe3.
    destruct (chain_message_id CB uuid4 (snd hm) _) as [out w' [e|m'']];
      cbn [returned emitted after dicts drawn callback_state]
        in Hret, Hout, Hdrawn, Hcb, Hdom3, Hframe3;
      [discriminate|]. injection Hret as ->. subst out.
    exists (with_message m' (snd (merge_metadata x request (dicts w)))), w'.
    split; [reflexivity|]. split; [|split; [|split; [|split]]].
    + rewrite <- Hbare. apply (bare_with_message _ m); [congruence|].
      unfold message_content. rewrite Hrole, Hparts.
      apply (message_content_merge_metadata m (tsp_message request)).
    + rewrite Hdrawn. lia.
    + exact Hcb.
    + etrans; [exact Hdom1|]. etrans; [exact Hdom2|exact Hdom3].
    + intros l Hin [Hpayload Hmessage].
      assert (l ∈ dom h1) as Hin1 by (eapply elem_of_weaken; eassumption).
      assert (l ∈ dom (fst hm)) as Hin2 by (eapply elem_of_weaken; eassumption).
      rewrite Hframe3; [|exact Hin2|].
      * rewrite Hframe2; [apply Hframe1; assumption|exact Hin1|].
        cbn. intros [= Heq]. exact (Hmessage m Hm Heq).
      * destruct Hmeta as [Heq|Heq]; rewrite Heq; [now apply Hmessage|].
        intros [= Hl]. apply (is_fresh (dom h1)). now rewrite Hl.
  - eexists _, _. split; [reflexivity|]. cbn.
    split; [exact Hbare|]. split; [lia|]. split; [reflexivity|].
    split; [exact Hdom1|]. intros l Hin [Hpayload _]. auto.
Qed.

(** X11. [reconcile] changes nothing of a payload but references to metadata
    dicts: the payload that the callback is shown has the identifier, the
    state, the final flag, the artifact, the history and the role and parts
    of the status message that the remote agent sent. *)
Theorem reconcile_keeps_content request result (w : world CB) :
  exists result',
    returned (reconcile CB uuid4 request result w) = inr result' /\
    bare result' = bare result.
Proof.
  destruct (reconcile_step request result w) as (x' & w' & -> & Hbare & _).
  exists x'. auto.
Qed.


(** *** The whole exchange *)

(** What the loop of the streaming path does, whatever the stream. *)
Lemma consume_run request (cb : option (TaskUpdateCallback CB)) rs :
  forall task (w : world CB),
  let r := consume CB uuid4 card request cb rs task w in
  List.map bare (emitted r) =
    match cb with Some _ => List.map bare (consumed rs) | None => [] end /\
  drawn (after r) = drawn w + length (List.filter has_message (consumed rs)) /\
  dom (dicts w) ⊆ dom (dicts (after r)) /\
  (forall l, l ∈ dom (dicts w) -> Forall (apart l) (consumed rs) ->
     dicts (after r) !! l = dicts w !! l).
Proof.
  induction rs as [|e|x rest IH]; intros task w r; subst r.
  - cbn. destruct cb; repeat split; auto; lia.
  - cbn. destruct cb; repeat split; auto; lia.
  - destruct (reconcile_step request x w)
      as (x' & w' & Hrec & Hbare & Hdrawn & Hcb & Hdom & Hframe).
    destruct (consume_next uuid4 card request cb x rest task w)
      as (x2 & w2 & Hrec2 & _ & Hstep).
    rewrite Hrec in Hrec2. injection Hrec2 as <- <-.
    rewrite Hstep. clear Hstep. cbn [consumed List.filter].
    assert (Hcount : forall n,
              length (if has_message x then x :: n else n) =
              (if has_message x then 1 else 0) + length n)
      by (intros n; now destruct (has_message x)).
    rewrite Hcount.
    destruct cb as [callback|]; cbv zeta.
    + set (st := callback (callback_state w') (dicts w') x' card).
      set (w'' := mkWorld (dicts w') (drawn w') (fst st)).
      destruct (is_final x).
      * cbn. rewrite Hbare. split; [reflexivity|]. split; [lia|].
        split; [exact Hdom|]. intros l Hin Hall. apply Hframe; [exact Hin|].
        now apply Forall_inv in Hall.
      * specialize (IH (Some (snd st)) w''). cbv zeta in IH.
        destruct (consume CB uuid4 card request (Some callback) rest _ w'')
          as [out w3 res].
        cbn [emitted after returned dicts drawn w''] in IH |- *.
        destruct IH as (Hmap & Hdr & Hd & Hfr).
        cbn [List.map]. rewrite Hmap, Hbare, Hdr. split; [reflexivity|].
        split; [lia|]. split; [etrans; eassumption|].
        intros l Hin Hall. apply Forall_cons in Hall as [Hx Hall].
        rewrite Hfr; [now apply Hframe| |exact Hall].
        eapply elem_of_weaken; eassumption.
    + destruct (is_final x).
      * cbn. split; [reflexivity|]. split; [lia|].
        split; [exact Hdom|]. intros l Hin Hall. apply Hframe; [exact Hin|].
        now apply Forall_inv in Hall.
      * specialize (IH task w'). cbv zeta in IH.
        destruct (consume CB uuid4 card request None rest task w')
          as [out w3 res].
        cbn [emitted after returned dicts drawn] in IH |- *.
        destruct IH as (Hmap & Hdr & Hd & Hfr).
        rewrite Hdr. split; [exact Hmap|].
        split; [lia|]. split; [etrans; eassumption|].
        intros l Hin Hall. apply Forall_cons in Hall as [Hx Hall].
        rewrite Hfr; [now apply Hframe| |exact Hall].
        eapply elem_of_weaken; eassumption.
Qed.

(** [send_task] on a streaming card, in terms of its loop. *)
Lemma send_task_streaming_run request (cb : option (TaskUpdateCallback CB))
    (w : world CB) :
  card_streaming card = true ->
  exists w0,
    dicts w0 = dicts w /\ drawn w0 = drawn w /\
    let rc :=
      consume CB uuid4 card request cb
        (client_send_task_streaming agent_client request) None w0 in
    let r := send_task CB uuid4 agent_client card request cb w in
    emitted r =
      match cb with Some _ => [submitted request] | None => [] end ++ emitted rc /\
    after r = after rc /\
    returned r =
      match returned rc with
      | inl e => inl e
      | inr end_of_loop =>
          inr (match fst end_of_loop with Some t => PTask t | None => PNone end,
               snd end_of_loop)
      end.
Proof.
  intros Hstreaming. unfold send_task. rewrite Hstreaming.
  destruct cb as [callback|].
  - exists (mkWorld (dicts w) (drawn w)
              (fst (callback (callback_state w) (dicts w) (submitted request) card))).
    split; [reflexivity|]. split; [reflexivity|].
    cbn -[consume]. unfold call.
    destruct (callback (callback_state w) (dicts w) (submitted request) card)
      as [s t]. cbn -[consume].
    destruct (consume CB uuid4 card request (Some callback) _ None _)
      as [out w' [e|[task unread]]]; cbn; rewrite ?app_nil_r; auto.
  - exists w. split; [reflexivity|]. split; [reflexivity|].
    cbn -[consume].
    destruct (consume CB uuid4 card request None _ None w)
      as [out w' [e|[task unread]]]; cbn; rewrite ?app_nil_r; auto.
Qed.

(** [send_task] on a card without streaming. *)
Lemma send_task_unary_run request (cb : option (TaskUpdateCallback CB))
    (w : world CB) :
  card_streaming card = false ->
  let r := send_task CB uuid4 agent_client card request cb w in
  match client_send_task agent_client request with
  | inl e => r = mkOutcome [] w (inl e)
  | inr result =>
      exists result' w',
        reconcile CB uuid4 request result w = mkOutcome [] w' (inr result') /\
        returned r = inr (result', Ended) /\
        emitted r = match cb with Some _ => [result'] | None => [] end /\
        dicts (after r) = dicts w' /\ drawn (after r) = drawn w' /\
        callback_state (after r) =
          match cb with
          | Some callback =>
              fst (callback (callback_state w') (dicts w') result' card)
          | None => callback_state w'
          end
  end.
Proof.
  intros Hunary r. subst r. unfold send_task. rewrite Hunary.
  destruct (client_send_task agent_client request) as [e|result]; [reflexivity|].
  destruct (reconcile_step request result w) as (x' & w' & Hrec & _).
  exists x', w'. split; [exact Hrec|].
  cbn -[reconcile]. rewrite Hrec.
  destruct cb as [callback|]; cbn; [|auto].
  unfold call.
  destruct (callback (callback_state w') (dicts w') x' card) as [s t]. cbn. auto.
Qed.

(** X12. The callback sees what the remote agent delivered.  With a
    callback, [send_task] calls it, in this order: on a streaming card
    first with a snapshot, the task that has the identifier and the session
    of the request, the state [SUBMITTED] with the request's message as the
    status message, that message as the only entry of the history, and
    neither artifacts nor metadata; then with each result that it takes from
    the client, every one with its content intact.  It calls it with nothing
    else, also when the stream breaks.  Without a callback nothing is
    called. *)
Theorem callback_sees_what_was_delivered request
    (cb : option (TaskUpdateCallback CB)) (w : world CB) :
  let shown := emitted (send_task CB uuid4 agent_client card request cb w) in
  let snapshot :=
    PTask (mkTask (tsp_id request) (tsp_sessionId request)
             (mkTaskStatus SUBMITTED (Some (tsp_message request)))
             None (Some [tsp_message request]) None) in
  match cb with
  | Some _ =>
      exists results,
        shown = (if card_streaming card then [snapshot] else []) ++ results /\
        List.map bare results =
          List.map bare (delivered agent_client card request)
  | None => shown = []
  end.
Proof.
  intros shown snapshot. subst shown snapshot.
  unfold delivered. destruct (card_streaming card) eqn:Hcard.
  - destruct (send_task_streaming_run request cb w Hcard)
      as (w0 & _ & _ & Hout & _).
    cbv zeta in Hout.
    destruct (consume_run request cb
                (client_send_task_streaming agent_client request) None w0)
      as (Hmap & _).
    destruct cb as [callback|].
    + eexists. split; [exact Hout|exact Hmap].
    + rewrite Hout. apply map_eq_nil in Hmap. rewrite Hmap. reflexivity.
  - pose proof (send_task_unary_run request cb w Hcard) as Hrun.
    cbv zeta in Hrun.
    destruct (client_send_task agent_client request) as [e|result].
    + rewrite Hrun. destruct cb; [exists []; split; reflexivity|reflexivity].
    + destruct Hrun as (x' & w' & Hrec & _ & -> & _).
      destruct (reconcile_step request result w) as (x2 & w2 & Hrec2 & Hbare & _).
      rewrite Hrec in Hrec2. injection Hrec2 as <- <-.
      destruct cb; [|reflexivity].
      exists [x']. split; [reflexivity|]. cbn. now rewrite Hbare.
Qed.

(** X13. The dicts of others stay as they are.  A dict that was there before
    the call and that is not the metadata of a delivered payload or of its
    status message is the same after [send_task]: in particular the
    metadata of the request and of the request's message, from which the
    entries are copied, are never written to.  No dict is lost. *)
Theorem send_task_keeps_other_dicts request
    (cb : option (TaskUpdateCallback CB)) (w : world CB) l :
  l ∈ dom (dicts w) ->
  Forall (apart l) (delivered agent_client card request) ->
  let r := send_task CB uuid4 agent_client card request cb w in
  dicts (after r) !! l = dicts w !! l /\ dom (dicts w) ⊆ dom (dicts (after r)).
Proof.
  intros Hin Hall r. subst r. unfold delivered in Hall.
  destruct (card_streaming card) eqn:Hcard.
  - destruct (send_task_streaming_run request cb w Hcard)
      as (w0 & Hd0 & _ & _ & Hafter & _).
    cbv zeta in Hafter. rewrite Hafter.
    destruct (consume_run request cb
                (client_send_task_streaming agent_client request) None w0)
      as (_ & _ & Hdom & Hframe).
    rewrite Hd0 in Hdom, Hframe. split; [now apply Hframe|exact Hdom].
  - pose proof (send_task_unary_run request cb w Hcard) as Hrun.
    cbv zeta in Hrun.
    destruct (client_send_task agent_client request) as [e|result].
    + rewrite Hrun. cbn. split; reflexivity.
    + destruct Hrun as (x' & w' & Hrec & _ & _ & -> & _).
      destruct (reconcile_step request result w)
        as (x2 & w2 & Hrec2 & _ & _ & _ & Hdom & Hframe).
      rewrite Hrec in Hrec2. injection Hrec2 as <- <-.
      split; [|exact Hdom]. apply Hframe; [exact Hin|].
      now apply Forall_inv in Hall.
Qed.

(** X14. One identifier per status message.  [send_task] draws from the
    identifier generator once for every delivered payload that has a status
    with a message, and not at all for the others (artifact updates,
    statuses without message, empty responses). *)
Theorem send_task_draws_one_identifier_per_message request
    (cb : option (TaskUpdateCallback CB)) (w : world CB) :
  drawn (after (send_task CB uuid4 agent_client card request cb w)) =
    drawn w +
    length (List.filter has_message (delivered agent_client card request)).
Proof.
  unfold delivered. destruct (card_streaming card) eqn:Hcard.
  - destruct (send_task_streaming_run request cb w Hcard)
      as (w0 & _ & Hn0 & _ & Hafter & _).
    cbv zeta in Hafter. rewrite Hafter.
    destruct (consume_run request cb
                (client_send_task_streaming agent_client request) None w0)
      as (_ & Hdrawn & _).
    now rewrite Hdrawn, Hn0.
  - pose proof (send_task_unary_run request cb w Hcard) as Hrun.
    cbv zeta in Hrun.
    destruct (client_send_task agent_client request) as [e|result].
    + rewrite Hrun. cbn. lia.
    + destruct Hrun as (x' & w' & Hrec & _ & _ & _ & -> & _).
      destruct (reconcile_step request result w)
        as (x2 & w2 & Hrec2 & _ & Hdrawn & _).
      rewrite Hrec in Hrec2. injection Hrec2 as <- <-.
      rewrite Hdrawn. cbn. now destruct (has_message result).
Qed.

(** X15. On a card without streaming [send_task] makes the one call of
    the client.  When the call raises, the exception leaves [send_task]
    with nothing done: no callback, no dict touched.  When it answers,
    [send_task] returns the answered payload (its content intact) whatever
    the callback returns, having called the callback once with that
    payload if there is one. *)
Theorem send_task_unary_returns_remote_payload request
    (cb : option (TaskUpdateCallback CB)) (w : world CB) :
  card_streaming card = false ->
  let r := send_task CB uuid4 agent_client card request cb w in
  (forall e, client_send_task agent_client request = inl e ->
     r = mkOutcome [] w (inl e)) /\
  (forall result, client_send_task agent_client request = inr result ->
     exists result',
       returned r = inr (result', Ended) /\ bare result' = bare result /\
       emitted r = match cb with Some _ => [result'] | None => [] end).
Proof.
  intros Hcard r. pose proof (send_task_unary_run request cb w Hcard) as Hrun.
  cbv zeta in Hrun. fold r in Hrun. split.
  - intros e He. now rewrite He in Hrun.
  - intros result Hres. rewrite Hres in Hrun.
    destruct Hrun as (x' & w' & Hrec & Hret & Hout & _).
    destruct (reconcile_step request result w) as (x2 & w2 & Hrec2 & Hbare & _).
    rewrite Hrec in Hrec2. injection Hrec2 as <- <-.
    exists x'. auto.
Qed.

(** X16. A remote stream that breaks.  When the stream raises before any
    final result, the exception leaves [send_task] (it is not caught and no
    task is returned), after the callback has been called with the snapshot
    and with every result delivered before the break. *)
Theorem send_task_broken_stream request (cb : option (TaskUpdateCallback CB))
    (w : world CB) pre e :
  card_streaming card = true ->
  client_send_task_streaming agent_client request = results_then pre (Broken e) ->
  Forall (fun r => is_final r = false) pre ->
  let r := send_task CB uuid4 agent_client card request cb w in
  returned r = inl e /\
  length (emitted r) = match cb with Some _ => S (length pre) | None => 0 end.
Proof.
  intros Hcard Hstream Hpre r. subst r.
  destruct (send_task_streaming_run request cb w Hcard)
    as (w0 & _ & _ & Hout & _ & Hret).
  cbv zeta in Hout, Hret. rewrite Hout, Hret, Hstream.
  destruct (consume_prefix uuid4 card request cb pre Hpre None w0)
    as (out & w1 & task1 & _ & Hlen & _ & _ & Htail).
  rewrite Htail. cbn. split; [reflexivity|].
  rewrite length_app, app_nil_r, Hlen. now destruct cb.
Qed.

End MoreDispatcherProperties.

(** * Further properties on the sample data *)

Section MoreTaskManagerSamples.
Import TaskManager TaskManagerMore Samples MoreSamples.
Local Open Scope list_scope.

Lemma task_identifiers_stay_keyed_witness :
  keyed (tasks sample_world) /\
  keyed (tasks (after (_stream_generator sample_loads
                         (sample_agent (inr VNone) three_updates)
                         sample_request sample_world))).
Proof.
  assert (H : keyed (tasks sample_world)).
  { intros k t Hl. unfold sample_world in Hl. cbn [tasks] in Hl.
    apply lookup_singleton_Some in Hl as [<- <-]. reflexivity. }
  split; [exact H|].
  exact (proj2 (proj2 (task_identifiers_stay_keyed sample_loads
                         (sample_agent (inr VNone) three_updates) sample_request
                         "task-1" (mkTaskStatus WORKING None) None sample_world H))).
Defined.

Lemma streamed_status_is_stored_witness :
  let r :=
    _stream_generator sample_loads (sample_agent (inr VNone) three_updates)
      sample_request sample_world in
  exists t',
    tasks (after r) !! "task-1" = Some t' /\
    t_status t' =
      mkTaskStatus COMPLETED
        (Some (mkMessage "agent" [TextPart (VStr "done")] None)).
Proof.
  destruct (streamed_status_is_stored sample_loads
              (sample_agent (inr VNone) three_updates) sample_request sample_world
              (mkTaskStatusUpdateEvent "task-1"
                 (mkTaskStatus COMPLETED
                    (Some (mkMessage "agent" [TextPart (VStr "done")] None)))
                 false None)
              [artifact_event sample_request
                 (terminal_artifact [TextPart (VStr "done")]);
               final_event sample_request COMPLETED]
              eq_refl)
    as (t' & Hlook & Hstatus & _).
  exists t'. split; assumption.
Defined.

Lemma stream_last_update_wins_witness :
  let r1 :=
    _stream_generator sample_loads (sample_agent (inr VNone) three_updates)
      sample_request sample_world in
  let r2 :=
    _stream_generator sample_loads
      (sample_agent (inr VNone) (Yields (terminal (VStr "done")) Exhausted))
      sample_request sample_world in
  emitted r1 = emitted r2 /\ tasks (after r1) = tasks (after r2) /\
  returned r1 = returned r2.
Proof.
  refine (stream_last_update_wins sample_loads
            (sample_agent (inr VNone) three_updates)
            (sample_agent (inr VNone) (Yields (terminal (VStr "done")) Exhausted))
            sample_request (VStr "draft a post") sample_world
            [progress "thinking"; progress "writing"] [] (terminal (VStr "done"))
            _ _ eq_refl eq_refl eq_refl eq_refl eq_refl).
Defined.

Lemma unreadable_update_ends_stream_witness :
  let r :=
    _stream_generator sample_loads
      (sample_agent (inr VNone)
         (Yields (progress "thinking")
            (Yields malformed (Yields (terminal (VStr "done")) Exhausted))))
      sample_request sample_world in
  emitted r =
    [JSONRPCResponse (VInt 7)
       (InternalError "An error occurred while streaming the response")] /\
  returned r = inr tt /\ tasks (after r) = tasks sample_world.
Proof.
  refine (unreadable_update_ends_stream sample_loads
            (sample_agent (inr VNone)
               (Yields (progress "thinking")
                  (Yields malformed (Yields (terminal (VStr "done")) Exhausted))))
            sample_request (VStr "draft a post") sample_world
            [progress "thinking"] malformed
            (Yields (terminal (VStr "done")) Exhausted) _
            eq_refl eq_refl eq_refl eq_refl).
Defined.

Lemma update_store_twice_witness :
  let first := mkArtifact [TextPart (VStr "a")] None None in
  let second := mkArtifact [TextPart (VStr "b")] None None in
  _update_store "task-1" (mkTaskStatus COMPLETED None) (Some [second])
    (after (_update_store "task-1" (mkTaskStatus WORKING None) (Some [first])
              sample_world)) =
  _update_store "task-1" (mkTaskStatus COMPLETED None) (Some [first; second])
    sample_world.
Proof.
  exact (update_store_twice "task-1" (mkTaskStatus WORKING None)
           (Some [mkArtifact [TextPart (VStr "a")] None None])
           (mkTaskStatus COMPLETED None)
           (Some [mkArtifact [TextPart (VStr "b")] None None])
           sample_world sample_task eq_refl).
Defined.

End MoreTaskManagerSamples.

Section MoreRemoteAgentSamples.
Import RemoteAgent RemoteAgentMore RemoteSamples MoreSamples.
Local Open Scope list_scope.

Lemma send_task_keeps_other_dicts_witness :
  let r :=
    send_task nat sample_uuid4 sample_client sample_card sample_request
      (Some sample_callback) sample_world in
  dicts (after r) !! 1%positive = Some {[ "message_id" := VStr "m-0" ]} /\
  dom sample_dicts ⊆ dom (dicts (after r)).
Proof.
  assert (Hin : 1%positive ∈ dom (dicts sample_world)).
  { apply elem_of_dom. eexists. reflexivity. }
  assert (Hall : Forall (apart 1%positive)
                   (delivered sample_client sample_card sample_request)).
  { repeat constructor; try discriminate; intros m [= <-]; discriminate. }
  exact (send_task_keeps_other_dicts sample_uuid4 sample_client sample_card
           sample_request (Some sample_callback) sample_world 1%positive Hin Hall).
Defined.

Lemma send_task_unary_returns_remote_payload_witness :
  let r :=
    send_task nat sample_uuid4 unary_client unary_card sample_request
      (Some sample_callback) sample_world in
  exists result',
    returned r = inr (result', Ended) /\
    bare result' = bare (sample_update COMPLETED "done" true) /\
    emitted r = [result'].
Proof.
  exact (proj2 (send_task_unary_returns_remote_payload sample_uuid4 unary_client
                  unary_card sample_request (Some sample_callback) sample_world
                  eq_refl)
           (sample_update COMPLETED "done" true) eq_refl).
Defined.

Lemma send_task_broken_stream_witness :
  let r :=
    send_task nat sample_uuid4 broken_client sample_card sample_request
      (Some sample_callback) sample_world in
  returned r = inl (Raised "connection lost") /\ length (emitted r) = 2.
Proof.
  assert (Hpre : Forall (fun r => is_final r = false)
                   [sample_update WORKING "writing" false])
    by (repeat constructor).
  exact (send_task_broken_stream sample_uuid4 broken_client sample_card
           sample_request (Some sample_callback) sample_world
           [sample_update WORKING "writing" false] (Raised "connection lost")
           eq_refl eq_refl Hpre).
Defined.

End MoreRemoteAgentSamples.
